(** * MAX7219 cascade driver (rpi-led-matrix/device.py)

    A shallow embedding of the [Device] and [Matrix] classes of
    [device.py].  Python integers are unbounded, so every integer is a [Z];
    the framebuffer [self._buffer] is a [list Z]; the SPI handle
    [self._spi] is modelled by the ordered log of the byte sequences handed
    to [xfer2].  Methods become computations in a state-and-exception
    monad: a raised exception keeps whatever mutation happened before it. *)

From Stdlib Require Import Ascii.
From stdpp Require Import base numbers list strings pretty.

Local Open Scope Z_scope.

(** ** Register addresses *)

Module Constants.
Definition MAX7219_REG_NOOP : Z := 0x0.
Definition MAX7219_REG_DIGIT0 : Z := 0x1.
Definition MAX7219_REG_DIGIT1 : Z := 0x2.
Definition MAX7219_REG_DIGIT2 : Z := 0x3.
Definition MAX7219_REG_DIGIT3 : Z := 0x4.
Definition MAX7219_REG_DIGIT4 : Z := 0x5.
Definition MAX7219_REG_DIGIT5 : Z := 0x6.
Definition MAX7219_REG_DIGIT6 : Z := 0x7.
Definition MAX7219_REG_DIGIT7 : Z := 0x8.
Definition MAX7219_REG_DECODEMODE : Z := 0x9.
Definition MAX7219_REG_INTENSITY : Z := 0xA.
Definition MAX7219_REG_SCANLIMIT : Z := 0xB.
Definition MAX7219_REG_SHUTDOWN : Z := 0xC.
Definition MAX7219_REG_DISPLAYTEST : Z := 0xF.
End Constants.
Import Constants.

Definition NUM_DIGITS : Z := 8.

(** ** Exceptions and object state *)

(** The exceptions the two classes can raise.  An [assert] carries its
    optional message; [LookupError] stands for the [KeyError] or
    [IndexError] of a font that has no entry for a code. *)
Inductive exn : Type :=
  | AssertionError (msg : option string)
  | IndexError
  | LookupError
  | OverflowError (msg : string).

(** The fields of a [Device] instance. *)
Record Device : Type := mkDevice {
  _cascaded : Z;
  _buffer : list Z;
  _spi : list (list Z)
}.

Definition with_buffer (self : Device) (b : list Z) : Device :=
  {| _cascaded := _cascaded self; _buffer := b; _spi := _spi self |}.

Definition with_spi (self : Device) (log : list (list Z)) : Device :=
  {| _cascaded := _cascaded self; _buffer := _buffer self; _spi := log |}.

Inductive Res (A : Type) : Type :=
  | Ok (a : A)
  | Raise (e : exn).
Arguments Ok {A} a.
Arguments Raise {A} e.

(** A method body: it runs on [self] and gives a result and the new [self]. *)
Definition M (A : Type) : Type := Device -> Res A * Device.

Definition ret {A} (a : A) : M A := fun self => (Ok a, self).

Definition raise {A} (e : exn) : M A := fun self => (Raise e, self).

Definition bind {A B} (m : M A) (k : A -> M B) : M B :=
  fun self =>
    match m self with
    | (Ok a, self') => k a self'
    | (Raise e, self') => (Raise e, self')
    end.

Notation "x <- m ;; k" := (bind m (fun x => k))
  (at level 100, m at next level, right associativity).
Notation "m ;; k" := (bind m (fun _ => k))
  (at level 100, right associativity).

Definition get_buffer : M (list Z) := fun self => (Ok (_buffer self), self).
Definition set_buffer (b : list Z) : M unit :=
  fun self => (Ok tt, with_buffer self b).
Definition get_cascaded : M Z := fun self => (Ok (_cascaded self), self).

(** [assert cond, msg] *)
Definition assert (cond : bool) (msg : option string) : M unit :=
  if cond then ret tt else raise (AssertionError msg).

(** [for x in xs: body(x)] *)
Fixpoint for_each {A} (xs : list A) (body : A -> M unit) : M unit :=
  match xs with
  | [] => ret tt
  | x :: xs' => body x ;; for_each xs' body
  end.

(** ** Python list primitives *)

(** [range(n)] and [range(a, b)] *)
Definition range (n : Z) : list Z := seqZ 0 n.
Definition range2 (a b : Z) : list Z := seqZ a (b - a).

(** [l * n]: the list repeated [n] times, empty for [n <= 0]. *)
Definition list_mul {A} (l : list A) (n : Z) : list A :=
  mjoin (replicate (Z.to_nat n) l).

(** Resolution of a subscript: a negative index counts from the end. *)
Definition norm_index {A} (l : list A) (i : Z) : option nat :=
  let n := Z.of_nat (length l) in
  if bool_decide (0 <= i < n) then Some (Z.to_nat i)
  else if bool_decide (- n <= i < 0) then Some (Z.to_nat (i + n))
  else None.

(** [l[i]] *)
Definition getitem (l : list Z) (i : Z) : M Z :=
  match norm_index l i with
  | Some k => match l !! k with Some v => ret v | None => raise IndexError end
  | None => raise IndexError
  end.

(** [self._buffer[i] = v] *)
Definition buffer_setitem (i v : Z) : M unit :=
  b <- get_buffer ;;
  match norm_index b i with
  | Some k => set_buffer (<[k := v]> b)
  | None => raise IndexError
  end.

(** [del self._buffer[i]] *)
Definition buffer_delitem (i : Z) : M unit :=
  b <- get_buffer ;;
  match norm_index b i with
  | Some k => set_buffer (delete k b)
  | None => raise IndexError
  end.

(** Truth value of an integer. *)
Definition truthy (v : Z) : bool := negb (v =? 0).

(** ** class Device *)

(** [self._spi.xfer2(list(data))]: one bus transfer. *)
Definition xfer2 (data : list Z) : M unit :=
  fun self => (Ok tt, with_spi self (_spi self ++ [data])).

(** [_write]: the data has already been collected into a list. *)
Definition _write (data : list Z) : M unit := xfer2 data.

(** [command] *)
Definition command (register data : Z) : M unit :=
  assert (bool_decide (MAX7219_REG_DECODEMODE <= register
                       /\ register <= MAX7219_REG_DISPLAYTEST)) None ;;
  c <- get_cascaded ;;
  _write (list_mul [register; data] c).

(** [_values]: the generator, run to exhaustion as [list(data)] does in
    [_write]; an [IndexError] in a subscript aborts the collection. *)
Fixpoint _values_from (position : Z) (devs : list Z) : M (list Z) :=
  match devs with
  | [] => ret []
  | deviceId :: devs' =>
      b <- get_buffer ;;
      v <- getitem b (deviceId * NUM_DIGITS + position) ;;
      rest <- _values_from position devs' ;;
      ret ((position + MAX7219_REG_DIGIT0) :: v :: rest)
  end.

Definition _values (position : Z) : M (list Z) :=
  c <- get_cascaded ;;
  _values_from position (range c).

(** [flush] *)
Definition flush : M unit :=
  for_each (range NUM_DIGITS) (fun posn =>
    data <- _values posn ;;
    _write data).

(** [brightness] *)
Definition brightness (intensity : Z) : M unit :=
  assert (bool_decide (0 <= intensity /\ intensity < 16))
         (Some ("Invalid brightness: " +:+ pretty intensity)) ;;
  command MAX7219_REG_INTENSITY intensity.

(** [set_byte] *)
Definition set_byte (deviceId position value : Z) (redraw : bool) : M unit :=
  c <- get_cascaded ;;
  assert (bool_decide (0 <= deviceId /\ deviceId < c))
         (Some ("Invalid deviceId: " +:+ pretty deviceId)) ;;
  assert (bool_decide (MAX7219_REG_DIGIT0 <= position
                       /\ position <= MAX7219_REG_DIGIT7))
         (Some ("Invalid digit/column: " +:+ pretty position)) ;;
  let offset := deviceId * NUM_DIGITS + position - MAX7219_REG_DIGIT0 in
  buffer_setitem offset value ;;
  if redraw then flush else ret tt.

(** [clear]: [deviceId] is [None] when the argument is left out.
    [not deviceId] holds for [None] and for [0]. *)
Definition clear (deviceId : option Z) : M unit :=
  c <- get_cascaded ;;
  assert (match deviceId with
          | None => true
          | Some d => negb (truthy d) || bool_decide (0 <= d /\ d < c)
          end)
         (Some ("Invalid deviceId: " +:+
                match deviceId with
                | None => "None"
                | Some d => pretty d
                end)) ;;
  let '(start, end_) :=
    match deviceId with
    | None => (0, c)
    | Some d => (d, d + 1)
    end in
  for_each (range2 start end_) (fun deviceId =>
    for_each (range NUM_DIGITS) (fun position =>
      set_byte deviceId (position + MAX7219_REG_DIGIT0) 0 false)) ;;
  flush.

(** [scroll_left] *)
Definition scroll_left (redraw : bool) : M unit :=
  buffer_delitem 0 ;;
  b <- get_buffer ;;
  set_buffer (b ++ [0]) ;;
  if redraw then flush else ret tt.

(** [scroll_right] *)
Definition scroll_right (redraw : bool) : M unit :=
  buffer_delitem (NUM_DIGITS - 1) ;;
  b <- get_buffer ;;
  set_buffer (0 :: b) ;;
  if redraw then flush else ret tt.

(** [__init__]: the object is created, then the chips are configured.
    The SPI bus numbers are only passed on to [spidev] and are left out. *)
Definition __init__ (cascaded : Z) : Res Device :=
  if negb (bool_decide (cascaded > 0))
  then Raise (AssertionError (Some "Must have at least one device!"))
  else
    let self := {| _cascaded := cascaded;
                   _buffer := list_mul (list_mul [0] NUM_DIGITS) cascaded;
                   _spi := [] |} in
    match (command MAX7219_REG_SCANLIMIT 7 ;;
           command MAX7219_REG_DECODEMODE 0 ;;
           command MAX7219_REG_DISPLAYTEST 0 ;;
           command MAX7219_REG_SHUTDOWN 1 ;;
           brightness 7 ;;
           clear None) self with
    | (Ok _, self') => Ok self'
    | (Raise e, _) => Raise e
    end.

(** ** class Matrix *)

(** A font table: the column values of a character code, when it has an
    entry.  The table itself ([font.CP437_FONT]) is an outside module and
    is taken as an argument, as [letter] takes it. *)
Definition Font : Type := Z -> option (list Z).

(** [font[code]] *)
Definition font_getitem (font : Font) (code : Z) : M (list Z) :=
  match font code with
  | Some cols => ret cols
  | None => raise LookupError
  end.

Definition overflow_message (asciiCode : Z) : string :=
  "Font for '" +:+ pretty asciiCode +:+ "' too large for display".

(** The body of the [for value in font[asciiCode]] loop of [letter], with
    the running column register [col]. *)
Fixpoint letter_loop (deviceId asciiCode col : Z) (vals : list Z) : M unit :=
  match vals with
  | [] => ret tt
  | value :: vals' =>
      if bool_decide (col > MAX7219_REG_DIGIT7)
      then clear (Some deviceId) ;;
           raise (OverflowError (overflow_message asciiCode))
      else set_byte deviceId col value false ;;
           letter_loop deviceId asciiCode (col + 1) vals'
  end.

(** [letter] *)
Definition letter (deviceId asciiCode : Z) (font : Font) (redraw : bool)
  : M unit :=
  assert (bool_decide (0 <= asciiCode /\ asciiCode < 256)) None ;;
  cols <- font_getitem font asciiCode ;;
  letter_loop deviceId asciiCode MAX7219_REG_DIGIT0 cols ;;
  if redraw then flush else ret tt.

(** [scroll_up] *)
Definition scroll_up (redraw : bool) : M unit :=
  b <- get_buffer ;;
  set_buffer ((fun value => Z.shiftr value 1) <$> b) ;;
  if redraw then flush else ret tt.

(** [scroll_down] *)
Definition scroll_down (redraw : bool) : M unit :=
  b <- get_buffer ;;
  set_buffer ((fun value => Z.shiftl value 1) <$> b) ;;
  if redraw then flush else ret tt.

(** [ord] *)
Definition ord (c : ascii) : Z := Z.of_nat (nat_of_ascii c).

(** [' ' * n] *)
Definition spaces (n : Z) : list ascii := list_mul [" "%char] n.

(** [show_message], on the characters of the text.  The generator [src]
    is consumed lazily, so a missing font entry is met only after the
    columns of the earlier characters have been shown.  [time.sleep] does
    not touch the object and is left out. *)
Definition show_message (text : list ascii) (font : Font) : M unit :=
  c <- get_cascaded ;;
  let text := text ++ spaces c in
  for_each text (fun asciiCode =>
    cols <- font_getitem font (ord asciiCode) ;;
    for_each cols (fun value =>
      scroll_left false ;;
      buffer_setitem (-1) value ;;
      flush)).

(** The filter of [str]: a value is kept when it is not zero or when the
    last kept value is not zero; [s2[-1]] on the empty list raises. *)
Fixpoint str_filter (s2 : list Z) (vals : list Z) : M (list Z) :=
  match vals with
  | [] => ret s2
  | val :: vals' =>
      keep <- (if truthy val then ret true
               else last_ <- getitem s2 (-1) ;; ret (truthy last_)) ;;
      str_filter (if keep : bool then s2 ++ [val] else s2) vals'
  end.

Fixpoint str_chars (font : Font) (s2 : list Z) (text : list ascii)
  : M (list Z) :=
  match text with
  | [] => ret s2
  | asciiCode :: text' =>
      cols <- font_getitem font (ord asciiCode) ;;
      s2' <- str_filter s2 cols ;;
      str_chars font s2' text'
  end.

(** [str]: the result is bound to a local name [_buffer], never to
    [self._buffer], so only the flush is seen. *)
Definition str (text : list ascii) (font : Font) : M unit :=
  s2 <- str_chars font [] text ;;
  flush.

(** [pixel] *)
Definition pixel (x y value : Z) (redraw : bool) : M unit :=
  b <- get_buffer ;;
  assert (bool_decide (0 <= x /\ x < Z.of_nat (length b))) None ;;
  assert (bool_decide (0 <= y /\ y < 8)) None ;;
  old <- getitem b y ;;
  (if truthy value
   then buffer_setitem y (Z.lor old (Z.shiftl 1 x))
   else buffer_setitem y (Z.land old (Z.lnot (Z.shiftl 1 x)))) ;;
  if redraw then flush else ret tt.

(** * Properties *)

(** ** The shape every constructed object keeps *)

(** At least one chip, and eight buffer bytes per chip. *)
Definition wf (self : Device) : Prop :=
  0 < _cascaded self
  /\ Z.of_nat (length (_buffer self)) = NUM_DIGITS * _cascaded self.

(** The cascade wire format of one column: for every device in order, the
    register of the column and then the data byte of that device. *)
Definition column_stream (buffer : list Z) (cascadeCount position : Z)
  : list Z :=
  d ← seqZ 0 cascadeCount;
  [position + MAX7219_REG_DIGIT0;
   buffer !!! Z.to_nat (d * NUM_DIGITS + position)].

(** What one flush adds to the bus. *)
Definition flush_transfers (buffer : list Z) (cascadeCount : Z)
  : list (list Z) :=
  column_stream buffer cascadeCount <$> seqZ 0 NUM_DIGITS.

(** The buffer after a run of single-byte stores at consecutive offsets
    from [start], the trace that the store loops of [clear] and [letter]
    leave behind. *)
Fixpoint write_run (b : list Z) (start : nat) (vals : list Z) : list Z :=
  match vals with
  | [] => b
  | v :: vals' => write_run (<[start := v]> b) (S start) vals'
  end.

(** A method keeps the shape of the object, whether it returns or raises. *)
Definition preserves {A} (m : M A) : Prop :=
  forall self, wf self ->
    wf (m self).2 /\ _cascaded (m self).2 = _cascaded self.

(** The public methods of [Device] and [Matrix], as calls with their
    arguments. *)
Inductive call : Type :=
  | CallCommand (register data : Z)
  | CallClear (deviceId : option Z)
  | CallFlush
  | CallBrightness (intensity : Z)
  | CallSetByte (deviceId position value : Z) (redraw : bool)
  | CallScrollLeft (redraw : bool)
  | CallScrollRight (redraw : bool)
  | CallLetter (deviceId asciiCode : Z) (font : Font) (redraw : bool)
  | CallScrollUp (redraw : bool)
  | CallScrollDown (redraw : bool)
  | CallShowMessage (text : list ascii) (font : Font)
  | CallStr (text : list ascii) (font : Font)
  | CallPixel (x y value : Z) (redraw : bool).

Definition run_call (c : call) : M unit :=
  match c with
  | CallCommand register data => command register data
  | CallClear deviceId => clear deviceId
  | CallFlush => flush
  | CallBrightness intensity => brightness intensity
  | CallSetByte deviceId position value redraw =>
      set_byte deviceId position value redraw
  | CallScrollLeft redraw => scroll_left redraw
  | CallScrollRight redraw => scroll_right redraw
  | CallLetter deviceId asciiCode font redraw =>
      letter deviceId asciiCode font redraw
  | CallScrollUp redraw => scroll_up redraw
  | CallScrollDown redraw => scroll_down redraw
  | CallShowMessage text font => show_message text font
  | CallStr text font => str text font
  | CallPixel x y value redraw => pixel x y value redraw
  end.

Definition is_scroll (c : call) : bool :=
  match c with
  | CallScrollLeft _ | CallScrollRight _
  | CallScrollUp _ | CallScrollDown _ => true
  | _ => false
  end.

(** The objects a program can hold: a constructed one, and the object left
    by any method call on such an object, returned from or raised out of. *)
Inductive reachable (cascaded : Z) : Device -> Prop :=
  | reachable_init self :
      __init__ cascaded = Ok self -> reachable cascaded self
  | reachable_call self c :
      reachable cascaded self -> reachable cascaded (run_call c self).2.

(** The columns of a text: the font entries of its characters one after
    the other, when every character has an entry. *)
Fixpoint text_columns (font : Font) (text : list ascii) : option (list Z) :=
  match text with
  | [] => Some []
  | ch :: text' =>
      match font (ord ch), text_columns font text' with
      | Some cols, Some rest => Some (cols ++ rest)
      | _, _ => None
      end
  end.

(** The body of the column loop of [show_message]. *)
Definition show_column (value : Z) : M unit :=
  scroll_left false ;;
  buffer_setitem (-1) value ;;
  flush.

(** A method changes nothing but the bus log, whether it returns or
    raises. *)
Definition bus_only {A} (m : M A) : Prop :=
  forall self, exists log,
    (m self).2 = with_spi self (_spi self ++ log).

(** A cascade packet for [cascaded] chips: two bytes per chip, and one
    register address between DIGIT0 and DISPLAYTEST that stands in front of
    the data byte of every chip. *)
Definition frame (cascaded : Z) (t : list Z) : Prop :=
  Z.of_nat (length t) = 2 * cascaded
  /\ exists r : Z,
      MAX7219_REG_DIGIT0 <= r <= MAX7219_REG_DISPLAYTEST
      /\ forall d : nat, Z.of_nat d < cascaded -> t !! (2 * d)%nat = Some r.

(** A method only ever adds cascade packets to the bus log, whether it
    returns or raises. *)
Definition sends_frames {A} (m : M A) : Prop :=
  forall self, wf self ->
    exists log : list (list Z),
      _spi (m self).2 = _spi self ++ log
      /\ Forall (frame (_cascaded self)) log.

(** One round of the animation loop of [main.py], for the number
    [direction] that [randrange(8)] gave; the closing [time.sleep] does not
    touch the object and is left out. *)
Definition main_round (direction : Z) : M unit :=
  pixel 4 4 1 false ;;
  (if (direction =? 7) || (direction =? 0) || (direction =? 1)
   then scroll_up false else ret tt) ;;
  (if (direction =? 1) || (direction =? 2) || (direction =? 3)
   then scroll_right false else ret tt) ;;
  (if (direction =? 3) || (direction =? 4) || (direction =? 5)
   then scroll_down false else ret tt) ;;
  (if (direction =? 5) || (direction =? 6) || (direction =? 7)
   then scroll_left false else ret tt) ;;
  flush.

(** ** Monad bookkeeping *)

Lemma bind_ok {A B} (m : M A) (k : A -> M B) self a self' :
  m self = (Ok a, self') -> bind m k self = k a self'.
Proof. intros H. unfold bind. by rewrite H. Qed.

Lemma bind_raise {A B} (m : M A) (k : A -> M B) self e self' :
  m self = (Raise e, self') -> bind m k self = (Raise e, self').
Proof. intros H. unfold bind. by rewrite H. Qed.

Lemma wf_with_spi self log : wf self -> wf (with_spi self log).
Proof. by intros [? ?]. Qed.

Lemma wf_with_buffer self b :
  wf self -> length b = length (_buffer self) -> wf (with_buffer self b).
Proof. intros [? ?] Hl. split; simpl; [done | by rewrite Hl]. Qed.

(** ** Subscripts *)

Lemma norm_index_nonneg {A} (l : list A) i :
  0 <= i < Z.of_nat (length l) -> norm_index l i = Some (Z.to_nat i).
Proof. intros H. unfold norm_index. by rewrite bool_decide_true. Qed.

Lemma norm_index_last {A} (l : list A) :
  l <> [] -> norm_index l (-1) = Some (pred (length l)).
Proof.
  intros Hl. unfold norm_index.
  rewrite bool_decide_false by lia.
  destruct l as [|x l]; [done|].
  rewrite bool_decide_true by (simpl; lia).
  f_equal. simpl length. lia.
Qed.

Lemma getitem_ok (l : list Z) i self :
  0 <= i < Z.of_nat (length l) ->
  getitem l i self = (Ok (l !!! Z.to_nat i), self).
Proof.
  intros H. unfold getitem. rewrite norm_index_nonneg by done.
  destruct (lookup_lt_is_Some_2 l (Z.to_nat i)) as [v Hv]; [lia|].
  rewrite Hv. by rewrite (list_lookup_total_correct _ _ _ Hv).
Qed.

Lemma buffer_setitem_ok i v self :
  0 <= i < Z.of_nat (length (_buffer self)) ->
  buffer_setitem i v self
  = (Ok tt, with_buffer self (<[Z.to_nat i := v]> (_buffer self))).
Proof.
  intros H. unfold buffer_setitem, bind, get_buffer.
  by rewrite norm_index_nonneg.
Qed.

Lemma buffer_delitem_ok i self :
  0 <= i < Z.of_nat (length (_buffer self)) ->
  buffer_delitem i self
  = (Ok tt, with_buffer self (delete (Z.to_nat i) (_buffer self))).
Proof.
  intros H. unfold buffer_delitem, bind, get_buffer.
  by rewrite norm_index_nonneg.
Qed.

(** ** flush *)

Lemma _values_from_ok position devs self :
  0 <= position < NUM_DIGITS ->
  Forall (fun d => 0 <= d < _cascaded self) devs ->
  wf self ->
  _values_from position devs self
  = (Ok (d ← devs;
         [position + MAX7219_REG_DIGIT0;
          _buffer self !!! Z.to_nat (d * NUM_DIGITS + position)]), self).
Proof.
  intros Hp Hd [Hc Hlen]. induction Hd as [|d devs Hd _ IH]; [done|].
  cbn [_values_from]. unfold bind at 1, get_buffer.
  unfold bind at 1. rewrite getitem_ok by (unfold NUM_DIGITS in *; lia).
  unfold bind at 1. by rewrite IH.
Qed.

Lemma _values_ok position self :
  0 <= position < NUM_DIGITS -> wf self ->
  _values position self
  = (Ok (column_stream (_buffer self) (_cascaded self) position), self).
Proof.
  intros Hp Hwf. unfold _values, bind at 1, get_cascaded, range.
  rewrite _values_from_ok; [done..| |done].
  apply Forall_forall. intros d Hd%elem_of_seqZ. lia.
Qed.

Lemma flush_loop_ok posns self :
  Forall (fun p => 0 <= p < NUM_DIGITS) posns -> wf self ->
  for_each posns (fun posn => data <- _values posn ;; _write data) self
  = (Ok tt,
     with_spi self
       (_spi self
        ++ (column_stream (_buffer self) (_cascaded self) <$> posns))).
Proof.
  intros Hp. revert self.
  induction Hp as [|p posns Hp _ IH]; intros self Hwf.
  - cbn. unfold ret, with_spi. rewrite app_nil_r. by destruct self.
  - cbn [for_each]. unfold bind at 1. unfold bind at 1.
    rewrite _values_ok by done. unfold _write, xfer2.
    rewrite IH by by apply wf_with_spi.
    cbn. by rewrite <- app_assoc.
Qed.

Lemma flush_ok self :
  wf self ->
  flush self
  = (Ok tt,
     with_spi self
       (_spi self ++ flush_transfers (_buffer self) (_cascaded self))).
Proof.
  intros Hwf. unfold flush, range. rewrite flush_loop_ok; [done| |done].
  apply Forall_forall. intros p Hp%elem_of_seqZ. lia.
Qed.

Lemma length_column_stream buffer cascadeCount position :
  0 <= cascadeCount ->
  Z.of_nat (length (column_stream buffer cascadeCount position))
  = 2 * cascadeCount.
Proof.
  intros Hc. unfold column_stream.
  transitivity (2 * Z.of_nat (length (seqZ 0 cascadeCount))).
  - induction (seqZ 0 cascadeCount) as [|d ds IH]; [done|].
    rewrite bind_cons, length_app. cbn [length]. lia.
  - rewrite length_seqZ. lia.
Qed.

(** A list of pairs laid out flat: where the two halves of pair [i] sit. *)
Lemma lookup_bind_pairs {A} (g h : A -> Z) (l : list A) (i : nat) :
  (l ≫= (fun x => [g x; h x])) !! (2 * i)%nat = g <$> l !! i
  /\ (l ≫= (fun x => [g x; h x])) !! (2 * i + 1)%nat = h <$> l !! i.
Proof.
  revert i. induction l as [|x l IH]; intros i; [done|].
  rewrite bind_cons. destruct i as [|i]; [done|].
  replace (2 * S i)%nat with (S (S (2 * i))) by lia.
  replace (S (S (2 * i)) + 1)%nat with (S (S (2 * i + 1))) by lia.
  cbn. apply IH.
Qed.

Lemma lookup_column_stream buffer cascadeCount position (d : nat) :
  0 <= position -> Z.of_nat d < cascadeCount ->
  column_stream buffer cascadeCount position !! (2 * d)%nat
    = Some (position + MAX7219_REG_DIGIT0)
  /\ column_stream buffer cascadeCount position !! (2 * d + 1)%nat
    = Some (buffer !!! (d * 8 + Z.to_nat position)%nat).
Proof.
  intros Hp Hd. unfold column_stream.
  destruct (lookup_bind_pairs (fun _ => position + MAX7219_REG_DIGIT0)
              (fun d => buffer !!! Z.to_nat (d * NUM_DIGITS + position))
              (seqZ 0 cascadeCount) d) as [-> ->].
  rewrite lookup_seqZ_lt by done. cbn. split; [done|].
  do 2 f_equal. unfold NUM_DIGITS. lia.
Qed.

(** C4: a flush of a well-formed object succeeds and adds exactly eight
    transfers to the bus, one per column position 0..7 in order.  The
    transfer of column [p] has length [2 * cascaded]; for each device [d]
    in order it holds the register [p + DIGIT0] at place [2d] and the data
    byte [buffer[d*8 + p]] at place [2d+1].  The buffer is not changed. *)
Theorem flush_eight_interleaved_transfers self :
  wf self ->
  exists transfers : list (list Z),
    flush self = (Ok tt, with_spi self (_spi self ++ transfers))
    /\ length transfers = 8%nat
    /\ forall p : nat, (p < 8)%nat ->
        exists t : list Z,
          transfers !! p = Some t
          /\ Z.of_nat (length t) = 2 * _cascaded self
          /\ forall d : nat, Z.of_nat d < _cascaded self ->
              t !! (2 * d)%nat = Some (Z.of_nat p + MAX7219_REG_DIGIT0)
              /\ t !! (2 * d + 1)%nat = _buffer self !! (d * 8 + p)%nat.
Proof.
  intros Hwf. exists (flush_transfers (_buffer self) (_cascaded self)).
  split; [by apply flush_ok|]. split; [done|].
  intros p Hp.
  exists (column_stream (_buffer self) (_cascaded self) (Z.of_nat p)).
  destruct Hwf as [Hc Hlen]. unfold NUM_DIGITS in Hlen.
  split; [|split].
  - unfold flush_transfers. rewrite list_lookup_fmap.
    rewrite lookup_seqZ_lt by (unfold NUM_DIGITS; lia).
    cbn. by rewrite ?Z.add_0_l.
  - apply length_column_stream. lia.
  - intros d Hd.
    destruct (lookup_column_stream (_buffer self) (_cascaded self)
                (Z.of_nat p) d) as [-> ->]; [lia | done |].
    split; [done|]. rewrite Nat2Z.id.
    destruct (lookup_lt_is_Some_2 (_buffer self) (d * 8 + p)) as [v Hv];
      [lia|].
    by rewrite Hv, (list_lookup_total_correct _ _ _ Hv).
Qed.

Lemma flush_eight_interleaved_transfers_witness :
  exists transfers : list (list Z),
    flush (mkDevice 2 [1;2;3;4;5;6;7;8;9;10;11;12;13;14;15;16] [])
    = (Ok tt, mkDevice 2 [1;2;3;4;5;6;7;8;9;10;11;12;13;14;15;16]
                ([] ++ transfers))
    /\ length transfers = 8%nat
    /\ forall p : nat, (p < 8)%nat ->
        exists t : list Z,
          transfers !! p = Some t
          /\ Z.of_nat (length t) = 2 * 2
          /\ forall d : nat, Z.of_nat d < 2 ->
              t !! (2 * d)%nat = Some (Z.of_nat p + MAX7219_REG_DIGIT0)
              /\ t !! (2 * d + 1)%nat
                 = [1;2;3;4;5;6;7;8;9;10;11;12;13;14;15;16] !! (d * 8 + p)%nat.
Proof.
  apply (flush_eight_interleaved_transfers
           (mkDevice 2 [1;2;3;4;5;6;7;8;9;10;11;12;13;14;15;16] [])).
  split; [simpl; lia | reflexivity].
Defined.

(** ** command and brightness *)

Lemma length_list_mul_pair (a b n : Z) :
  0 <= n -> Z.of_nat (length (list_mul [a; b] n)) = 2 * n.
Proof.
  intros Hn. unfold list_mul.
  rewrite <- (Z2Nat.id n) at 2 by done.
  induction (Z.to_nat n) as [|k IH]; [done|].
  change (mjoin (replicate (S k) [a; b]))
    with ([a; b] ++ mjoin (replicate k [a; b])).
  rewrite length_app. cbn [length]. lia.
Qed.

Lemma lookup_list_mul_pair (a b n : Z) (i : nat) :
  Z.of_nat i < n ->
  list_mul [a; b] n !! (2 * i)%nat = Some a
  /\ list_mul [a; b] n !! (2 * i + 1)%nat = Some b.
Proof.
  intros Hi. unfold list_mul.
  assert (i < Z.to_nat n)%nat as Hlt by lia. clear Hi.
  revert i Hlt. induction (Z.to_nat n) as [|k IH]; intros i Hlt; [lia|].
  destruct i as [|i]; [done|].
  replace (2 * S i)%nat with (S (S (2 * i))) by lia.
  replace (S (S (2 * i)) + 1)%nat with (S (S (2 * i + 1))) by lia.
  cbn. apply IH. lia.
Qed.

Lemma command_ok register data self :
  MAX7219_REG_DECODEMODE <= register <= MAX7219_REG_DISPLAYTEST ->
  command register data self
  = (Ok tt,
     with_spi self (_spi self ++ [list_mul [register; data] (_cascaded self)])).
Proof.
  intros Hr. unfold command. by rewrite bool_decide_true.
Qed.

Lemma command_rejected register data self :
  ~ (MAX7219_REG_DECODEMODE <= register <= MAX7219_REG_DISPLAYTEST) ->
  command register data self = (Raise (AssertionError None), self).
Proof.
  intros Hr. unfold command. by rewrite bool_decide_false.
Qed.

(** C7: with at least one chip, [command register data] for a register in
    [0x9, 0xF] adds exactly one transfer to the bus and leaves the rest of
    the object alone; the transfer has [2 * cascaded] bytes and holds the
    pair (register, data) once per chip.  A register outside [0x9, 0xF]
    fails the assertion with nothing transferred.  On two chips
    [command 0xA 7] transfers the bytes 0xA, 7, 0xA, 7. *)
Theorem command_one_transfer_of_repeated_pair self register data :
  0 < _cascaded self ->
  (MAX7219_REG_DECODEMODE <= register <= MAX7219_REG_DISPLAYTEST ->
   exists t : list Z,
     command register data self
     = (Ok tt, with_spi self (_spi self ++ [t]))
     /\ Z.of_nat (length t) = 2 * _cascaded self
     /\ forall d : nat, Z.of_nat d < _cascaded self ->
        t !! (2 * d)%nat = Some register
        /\ t !! (2 * d + 1)%nat = Some data)
  /\ (~ (MAX7219_REG_DECODEMODE <= register <= MAX7219_REG_DISPLAYTEST) ->
      command register data self = (Raise (AssertionError None), self))
  /\ (forall buffer log,
      command 0xA 7 (mkDevice 2 buffer log)
      = (Ok tt, mkDevice 2 buffer (log ++ [[0xA; 7; 0xA; 7]]))).
Proof.
  intros Hc. split; [|split].
  - intros Hr. exists (list_mul [register; data] (_cascaded self)).
    split; [by apply command_ok|].
    split; [apply length_list_mul_pair; lia|].
    intros d Hd. by apply lookup_list_mul_pair.
  - apply command_rejected.
  - done.
Qed.

Lemma command_one_transfer_of_repeated_pair_witness :
  (exists t : list Z,
     command MAX7219_REG_SHUTDOWN 1 (mkDevice 3 (replicate 24 0) [])
     = (Ok tt, mkDevice 3 (replicate 24 0) ([] ++ [t]))
     /\ Z.of_nat (length t) = 2 * 3
     /\ forall d : nat, Z.of_nat d < 3 ->
        t !! (2 * d)%nat = Some MAX7219_REG_SHUTDOWN
        /\ t !! (2 * d + 1)%nat = Some 1)
  /\ command MAX7219_REG_DIGIT0 1 (mkDevice 3 (replicate 24 0) [])
     = (Raise (AssertionError None), mkDevice 3 (replicate 24 0) []).
Proof.
  split.
  - apply (command_one_transfer_of_repeated_pair
             (mkDevice 3 (replicate 24 0) []) MAX7219_REG_SHUTDOWN 1).
    + simpl. lia.
    + unfold MAX7219_REG_DECODEMODE, MAX7219_REG_SHUTDOWN,
        MAX7219_REG_DISPLAYTEST. lia.
  - apply (command_one_transfer_of_repeated_pair
             (mkDevice 3 (replicate 24 0) []) MAX7219_REG_DIGIT0 1).
    + simpl. lia.
    + unfold MAX7219_REG_DECODEMODE, MAX7219_REG_DIGIT0,
        MAX7219_REG_DISPLAYTEST. lia.
Defined.

(** C9: a level outside [0, 16) makes [brightness] fail its assertion and
    leaves the object as it was: no transfer, no buffer change.  A level in
    [0, 16) is the [command] on the INTENSITY register, which succeeds with
    one transfer. *)
Theorem brightness_checks_level_first self v :
  (~ (0 <= v < 16) ->
   brightness v self
   = (Raise (AssertionError (Some ("Invalid brightness: " +:+ pretty v))),
      self))
  /\ (0 <= v < 16 ->
      brightness v self = command MAX7219_REG_INTENSITY v self
      /\ brightness v self
         = (Ok tt,
            with_spi self
              (_spi self
               ++ [list_mul [MAX7219_REG_INTENSITY; v] (_cascaded self)]))).
Proof.
  split; intros Hv; unfold brightness.
  - by rewrite bool_decide_false by lia.
  - rewrite bool_decide_true by lia. split; [done|].
    cbn [assert]. unfold bind at 1, ret. by apply command_ok.
Qed.

Lemma brightness_checks_level_first_witness :
  brightness 16 (mkDevice 2 (replicate 16 5) [])
  = (Raise (AssertionError (Some "Invalid brightness: 16")),
     mkDevice 2 (replicate 16 5) [])
  /\ brightness 15 (mkDevice 2 (replicate 16 5) [])
     = (Ok tt, mkDevice 2 (replicate 16 5) [[0xA; 15; 0xA; 15]]).
Proof.
  split.
  - apply (brightness_checks_level_first (mkDevice 2 (replicate 16 5) []) 16).
    lia.
  - apply (brightness_checks_level_first (mkDevice 2 (replicate 16 5) []) 15).
    lia.
Defined.

(** ** Runs of stores *)

Lemma length_write_run b start vals :
  length (write_run b start vals) = length b.
Proof.
  revert b start. induction vals as [|v vals IH]; intros b start; [done|].
  cbn. by rewrite IH, length_insert.
Qed.

Lemma lookup_write_run_lt b start vals (i : nat) :
  (i < start)%nat -> write_run b start vals !! i = b !! i.
Proof.
  revert b start. induction vals as [|v vals IH]; intros b start Hi; [done|].
  cbn. rewrite IH by lia. apply list_lookup_insert_ne. lia.
Qed.

Lemma lookup_write_run_ge b start vals (i : nat) :
  (start + length vals <= i)%nat -> write_run b start vals !! i = b !! i.
Proof.
  revert b start. induction vals as [|v vals IH]; intros b start Hi; [done|].
  cbn in *. rewrite IH by lia. apply list_lookup_insert_ne. lia.
Qed.

Lemma lookup_write_run_in b start vals (j : nat) :
  (start + length vals <= length b)%nat -> (j < length vals)%nat ->
  write_run b start vals !! (start + j)%nat = vals !! j.
Proof.
  revert b start j.
  induction vals as [|v vals IH]; intros b start j Hlen Hj; [cbn in Hj; lia|].
  cbn in *. destruct j as [|j].
  - rewrite lookup_write_run_lt by lia.
    rewrite Nat.add_0_r. apply list_lookup_insert_eq. lia.
  - replace (start + S j)%nat with (S start + j)%nat by lia.
    apply IH; [rewrite length_insert|]; lia.
Qed.

Lemma write_run_app b start xs ys :
  write_run b start (xs ++ ys)
  = write_run (write_run b start xs) (start + length xs) ys.
Proof.
  revert b start. induction xs as [|x xs IH]; intros b start.
  - cbn. by rewrite Nat.add_0_r.
  - cbn. rewrite IH. f_equal. lia.
Qed.

Lemma write_run_all_zero b :
  write_run b 0 (replicate (length b) 0) = replicate (length b) 0.
Proof.
  apply list_eq. intros i.
  destruct (decide (i < length b)%nat) as [Hi|Hi].
  - rewrite (lookup_write_run_in b 0 _ i); rewrite ?length_replicate; done.
  - rewrite lookup_write_run_ge by (rewrite length_replicate; lia).
    rewrite lookup_ge_None_2 by lia.
    symmetry. apply lookup_ge_None_2. rewrite length_replicate. lia.
Qed.

(** ** set_byte and clear *)

Lemma set_byte_ok deviceId position value self :
  wf self ->
  0 <= deviceId < _cascaded self ->
  MAX7219_REG_DIGIT0 <= position <= MAX7219_REG_DIGIT7 ->
  set_byte deviceId position value false self
  = (Ok tt,
     with_buffer self
       (<[Z.to_nat (deviceId * NUM_DIGITS + position - MAX7219_REG_DIGIT0)
          := value]> (_buffer self))).
Proof.
  intros [Hc Hlen] Hd Hp. unfold set_byte, bind at 1, get_cascaded.
  rewrite bool_decide_true by lia. unfold bind at 1. cbn [assert ret].
  rewrite bool_decide_true by lia. unfold bind at 1. cbn [assert ret].
  unfold bind at 1. rewrite buffer_setitem_ok; [done|].
  unfold NUM_DIGITS, MAX7219_REG_DIGIT0, MAX7219_REG_DIGIT7 in *. lia.
Qed.

(** The inner loop of [clear] over the positions [k .. k+n-1]. *)
Lemma clear_positions_ok deviceId (k n : nat) self :
  wf self ->
  0 <= deviceId < _cascaded self ->
  (k + n <= 8)%nat ->
  for_each ((fun i : nat => Z.of_nat i + 0) <$> seq k n)
    (fun position =>
       set_byte deviceId (position + MAX7219_REG_DIGIT0) 0 false) self
  = (Ok tt,
     with_buffer self
       (write_run (_buffer self) (Z.to_nat deviceId * 8 + k)
          (replicate n 0))).
Proof.
  revert k self. induction n as [|n IH]; intros k self Hwf Hd Hk.
  - cbn. unfold ret, with_buffer. by destruct self.
  - cbn [seq fmap list_fmap for_each]. unfold bind at 1.
    rewrite set_byte_ok; [|done..|
      unfold MAX7219_REG_DIGIT0, MAX7219_REG_DIGIT7; lia].
    rewrite IH; [| apply wf_with_buffer; [done|by rewrite length_insert]
                 | done | lia].
    cbn. do 3 f_equal; [|lia].
    f_equal. unfold NUM_DIGITS, MAX7219_REG_DIGIT0. lia.
Qed.

(** The outer loop of [clear] over the devices [k .. k+n-1]. *)
Lemma clear_devices_ok (k n : nat) self :
  wf self ->
  Z.of_nat (k + n) <= _cascaded self ->
  for_each ((fun i : nat => Z.of_nat i + 0) <$> seq k n)
    (fun deviceId =>
       for_each (range NUM_DIGITS) (fun position =>
         set_byte deviceId (position + MAX7219_REG_DIGIT0) 0 false)) self
  = (Ok tt,
     with_buffer self
       (write_run (_buffer self) (k * 8) (replicate (n * 8) 0))).
Proof.
  revert k self. induction n as [|n IH]; intros k self Hwf Hk.
  - cbn. unfold ret, with_buffer. by destruct self.
  - cbn [seq fmap list_fmap for_each]. unfold bind at 1.
    change (range NUM_DIGITS)
      with ((fun i : nat => Z.of_nat i + 0) <$> seq 0 8).
    rewrite clear_positions_ok by (done || lia).
    rewrite IH; [| apply wf_with_buffer; [done|by rewrite length_write_run]
                 | cbn; lia].
    cbn [_buffer with_buffer _cascaded _spi].
    change (S n * 8)%nat with (8 + n * 8)%nat.
    rewrite replicate_add, write_run_app, length_replicate.
    replace (Z.to_nat (Z.of_nat k + 0) * 8 + 0)%nat with (k * 8)%nat by lia.
    by replace (S k * 8)%nat with (k * 8 + 8)%nat by lia.
Qed.

Lemma clear_device_ok (k : Z) self :
  wf self -> 0 <= k < _cascaded self ->
  clear (Some k) self
  = flush (with_buffer self
             (write_run (_buffer self) (Z.to_nat k * 8) (replicate 8 0))).
Proof.
  intros Hwf Hk. unfold clear, bind at 1, get_cascaded.
  rewrite bool_decide_true, orb_true_r by lia.
  unfold bind at 1. cbn [assert ret]. unfold bind at 1.
  assert (range2 k (k + 1)
          = (fun i : nat => Z.of_nat i + 0) <$> seq (Z.to_nat k) 1) as ->.
  { unfold range2. replace (k + 1 - k) with 1 by lia.
    change (seqZ k 1) with [Z.of_nat 0 + k].
    cbn [seq fmap list_fmap]. f_equal. lia. }
  rewrite clear_devices_ok by (done || lia). done.
Qed.

Lemma clear_all_ok self :
  wf self ->
  clear None self
  = flush (with_buffer self (replicate (length (_buffer self)) 0)).
Proof.
  intros Hwf. unfold clear, bind at 1, get_cascaded.
  unfold bind at 1. cbn [assert ret]. unfold bind at 1.
  unfold range2, seqZ. rewrite Z.sub_0_r.
  rewrite clear_devices_ok by (done || destruct Hwf; lia).
  destruct Hwf as [Hc Hlen]. unfold NUM_DIGITS in Hlen.
  replace (Z.to_nat (_cascaded self) * 8)%nat with (length (_buffer self))
    by lia.
  change (0 * 8)%nat with 0%nat. by rewrite write_run_all_zero.
Qed.

(** C8: on a well-formed object, [clear] of an in-range device [k] is one
    flush of the buffer in which exactly the bytes at the indices
    [k*8, k*8+8) have become zero and every other byte is as before;
    [clear] with no device is one flush of the all-zero buffer of the same
    length.  In both cases the flush succeeds and adds its eight transfers
    to the bus. *)
Theorem clear_zeroes_then_flushes_once self :
  wf self ->
  (forall k : Z, 0 <= k < _cascaded self ->
   exists b' : list Z,
     clear (Some k) self = flush (with_buffer self b')
     /\ flush (with_buffer self b')
        = (Ok tt,
           mkDevice (_cascaded self) b'
             (_spi self ++ flush_transfers b' (_cascaded self)))
     /\ length b' = length (_buffer self)
     /\ (forall i : nat, k * 8 <= Z.of_nat i < k * 8 + 8 -> b' !! i = Some 0)
     /\ (forall i : nat, ~ (k * 8 <= Z.of_nat i < k * 8 + 8) ->
         b' !! i = _buffer self !! i))
  /\ (exists b' : list Z,
      clear None self = flush (with_buffer self b')
      /\ flush (with_buffer self b')
         = (Ok tt,
            mkDevice (_cascaded self) b'
              (_spi self ++ flush_transfers b' (_cascaded self)))
      /\ length b' = length (_buffer self)
      /\ (forall i : nat, (i < length b')%nat -> b' !! i = Some 0)).
Proof.
  intros Hwf. split.
  - intros k Hk.
    exists (write_run (_buffer self) (Z.to_nat k * 8) (replicate 8 0)).
    split; [by apply clear_device_ok|].
    split; [apply flush_ok, wf_with_buffer;
            [done | by rewrite length_write_run]|].
    split; [apply length_write_run|].
    destruct Hwf as [Hc Hlen]. unfold NUM_DIGITS in Hlen. split.
    + intros i Hi.
      replace i with (Z.to_nat k * 8 + (i - Z.to_nat k * 8))%nat by lia.
      rewrite lookup_write_run_in by (rewrite length_replicate; lia).
      apply lookup_replicate_2. lia.
    + intros i Hi.
      destruct (decide (i < Z.to_nat k * 8)%nat).
      * by apply lookup_write_run_lt.
      * apply lookup_write_run_ge. rewrite length_replicate. lia.
  - exists (replicate (length (_buffer self)) 0).
    split; [by apply clear_all_ok|].
    split; [apply flush_ok, wf_with_buffer;
            [done | by rewrite length_replicate]|].
    split; [apply length_replicate|].
    intros i Hi. apply lookup_replicate_2. by rewrite length_replicate in Hi.
Qed.

Lemma clear_zeroes_then_flushes_once_witness :
  exists b' : list Z,
    clear (Some 1)
      (mkDevice 2 [1;2;3;4;5;6;7;8;9;10;11;12;13;14;15;16] [])
    = flush (mkDevice 2 b' [])
    /\ flush (mkDevice 2 b' [])
       = (Ok tt, mkDevice 2 b' ([] ++ flush_transfers b' 2))
    /\ length b' = 16%nat
    /\ (forall i : nat, 1 * 8 <= Z.of_nat i < 1 * 8 + 8 -> b' !! i = Some 0)
    /\ (forall i : nat, ~ (1 * 8 <= Z.of_nat i < 1 * 8 + 8) ->
        b' !! i = [1;2;3;4;5;6;7;8;9;10;11;12;13;14;15;16] !! i).
Proof.
  apply (clear_zeroes_then_flushes_once
           (mkDevice 2 [1;2;3;4;5;6;7;8;9;10;11;12;13;14;15;16] [])).
  - split; [simpl; lia | reflexivity].
  - simpl. lia.
Defined.

(** ** letter *)

Lemma with_buffer_same self : with_buffer self (_buffer self) = self.
Proof. by destruct self. Qed.

(** The column loop when the remaining values fit the device. *)
Lemma letter_loop_fits deviceId asciiCode (k : nat) vals self :
  wf self -> 0 <= deviceId < _cascaded self ->
  (k + length vals <= 8)%nat ->
  letter_loop deviceId asciiCode (Z.of_nat k + MAX7219_REG_DIGIT0) vals self
  = (Ok tt,
     with_buffer self
       (write_run (_buffer self) (Z.to_nat deviceId * 8 + k) vals)).
Proof.
  revert k self. induction vals as [|v vals IH]; intros k self Hwf Hd Hk.
  - cbn. by rewrite with_buffer_same.
  - cbn [letter_loop length] in *.
    rewrite bool_decide_false
      by (unfold MAX7219_REG_DIGIT0, MAX7219_REG_DIGIT7; lia).
    unfold bind at 1.
    rewrite set_byte_ok
      by (done || unfold MAX7219_REG_DIGIT0, MAX7219_REG_DIGIT7; lia).
    replace (Z.of_nat k + MAX7219_REG_DIGIT0 + 1)
      with (Z.of_nat (S k) + MAX7219_REG_DIGIT0) by lia.
    rewrite IH; [| apply wf_with_buffer; [done|by rewrite length_insert]
                 | done | lia].
    cbn [_buffer with_buffer _cascaded _spi write_run].
    replace (Z.to_nat (deviceId * NUM_DIGITS
                       + (Z.of_nat k + MAX7219_REG_DIGIT0)
                       - MAX7219_REG_DIGIT0))
      with (Z.to_nat deviceId * 8 + k)%nat by (unfold NUM_DIGITS; lia).
    by replace (Z.to_nat deviceId * 8 + S k)%nat
      with (S (Z.to_nat deviceId * 8 + k)) by lia.
Qed.

(** The column loop when a ninth column is reached: the columns that fit
    have been stored, then the device is cleared and the error raised. *)
Lemma letter_loop_overflows deviceId asciiCode (k : nat) vals self :
  wf self -> 0 <= deviceId < _cascaded self ->
  (k <= 8)%nat -> (8 < k + length vals)%nat ->
  letter_loop deviceId asciiCode (Z.of_nat k + MAX7219_REG_DIGIT0) vals self
  = (clear (Some deviceId) ;;
     raise (OverflowError (overflow_message asciiCode)))
      (with_buffer self
         (write_run (_buffer self) (Z.to_nat deviceId * 8 + k)
            (take (8 - k) vals))).
Proof.
  revert k self.
  induction vals as [|v vals IH]; intros k self Hwf Hd Hk Hlen;
    [cbn in Hlen; lia|].
  cbn [letter_loop length] in *.
  destruct (decide (k = 8)%nat) as [->|Hne].
  - rewrite bool_decide_true
      by (unfold MAX7219_REG_DIGIT0, MAX7219_REG_DIGIT7; lia).
    cbn [Nat.sub take write_run]. by rewrite with_buffer_same.
  - rewrite bool_decide_false
      by (unfold MAX7219_REG_DIGIT0, MAX7219_REG_DIGIT7; lia).
    unfold bind at 1.
    rewrite set_byte_ok
      by (done || unfold MAX7219_REG_DIGIT0, MAX7219_REG_DIGIT7; lia).
    replace (Z.of_nat k + MAX7219_REG_DIGIT0 + 1)
      with (Z.of_nat (S k) + MAX7219_REG_DIGIT0) by lia.
    rewrite IH; [| apply wf_with_buffer; [done|by rewrite length_insert]
                 | done | lia | lia].
    replace (8 - k)%nat with (S (8 - S k)) by lia.
    cbn [_buffer with_buffer _cascaded _spi write_run take].
    replace (Z.to_nat (deviceId * NUM_DIGITS
                       + (Z.of_nat k + MAX7219_REG_DIGIT0)
                       - MAX7219_REG_DIGIT0))
      with (Z.to_nat deviceId * 8 + k)%nat by (unfold NUM_DIGITS; lia).
    by replace (Z.to_nat deviceId * 8 + S k)%nat
      with (S (Z.to_nat deviceId * 8 + k)) by lia.
Qed.

Lemma letter_fits deviceId asciiCode font cols redraw self :
  wf self -> 0 <= deviceId < _cascaded self ->
  0 <= asciiCode < 256 -> font asciiCode = Some cols ->
  (length cols <= 8)%nat ->
  letter deviceId asciiCode font redraw self
  = (if redraw then flush else ret tt)
      (with_buffer self
         (write_run (_buffer self) (Z.to_nat deviceId * 8) cols)).
Proof.
  intros Hwf Hd Hcode Hfont Hlen. unfold letter.
  rewrite bool_decide_true by lia. unfold bind at 1. cbn [assert ret].
  unfold bind at 1, font_getitem. rewrite Hfont. cbn [ret].
  unfold bind at 1.
  change MAX7219_REG_DIGIT0 with (Z.of_nat 0 + MAX7219_REG_DIGIT0) at 1.
  rewrite letter_loop_fits by (done || lia).
  by rewrite Nat.add_0_r.
Qed.

Lemma letter_overflows deviceId asciiCode font cols redraw self :
  wf self -> 0 <= deviceId < _cascaded self ->
  0 <= asciiCode < 256 -> font asciiCode = Some cols ->
  (8 < length cols)%nat ->
  letter deviceId asciiCode font redraw self
  = (clear (Some deviceId) ;;
     raise (OverflowError (overflow_message asciiCode)))
      (with_buffer self
         (write_run (_buffer self) (Z.to_nat deviceId * 8) (take 8 cols))).
Proof.
  intros Hwf Hd Hcode Hfont Hlen. unfold letter.
  rewrite bool_decide_true by lia. unfold bind at 1. cbn [assert ret].
  unfold bind at 1, font_getitem. rewrite Hfont. cbn [ret].
  unfold bind at 1.
  change MAX7219_REG_DIGIT0 with (Z.of_nat 0 + MAX7219_REG_DIGIT0) at 1.
  rewrite letter_loop_overflows by (done || lia).
  rewrite Nat.add_0_r. cbn [Nat.sub].
  set (s1 := with_buffer self _).
  unfold bind, raise.
  by destruct (clear (Some deviceId) s1) as [[[]|e] s2].
Qed.

(** C6: on a well-formed object, for an in-range device [d] and a code in
    [0, 256) whose font entry has more than eight column values, [letter]
    raises the overflow error whose message names the code; the object it
    leaves behind has the eight bytes [d*8, d*8+8) zero (the columns stored
    before the overflow are gone), every other byte as before, and the
    flush of the clear on the bus.  For an entry of eight or fewer values
    [letter] succeeds. *)
Theorem letter_overflow_clears_device self d code font cols redraw :
  wf self -> 0 <= d < _cascaded self ->
  0 <= code < 256 -> font code = Some cols ->
  ((8 < length cols)%nat ->
   exists b' : list Z,
     letter d code font redraw self
     = (Raise (OverflowError
                 ("Font for '" +:+ pretty code +:+ "' too large for display")),
        mkDevice (_cascaded self) b'
          (_spi self ++ flush_transfers b' (_cascaded self)))
     /\ length b' = length (_buffer self)
     /\ (forall i : nat, d * 8 <= Z.of_nat i < d * 8 + 8 -> b' !! i = Some 0)
     /\ (forall i : nat, ~ (d * 8 <= Z.of_nat i < d * 8 + 8) ->
         b' !! i = _buffer self !! i))
  /\ ((length cols <= 8)%nat ->
      exists self' : Device,
        letter d code font redraw self = (Ok tt, self')).
Proof.
  intros Hwf Hd Hcode Hfont. split; intros Hlen.
  - set (b1 := write_run (_buffer self) (Z.to_nat d * 8) (take 8 cols)).
    exists (write_run b1 (Z.to_nat d * 8) (replicate 8 0)).
    assert (length b1 = length (_buffer self)) as Hb1
      by apply length_write_run.
    assert (wf (with_buffer self b1)) as Hwf1 by by apply wf_with_buffer.
    split; [|split; [|split]].
    + rewrite (letter_overflows d code font cols) by done.
      fold b1. unfold bind at 1.
      rewrite clear_device_ok by done.
      rewrite flush_ok
        by (apply wf_with_buffer; [done | by rewrite length_write_run]).
      done.
    + by rewrite length_write_run.
    + intros i Hi. destruct Hwf as [Hc Hl]. unfold NUM_DIGITS in Hl.
      replace i with (Z.to_nat d * 8 + (i - Z.to_nat d * 8))%nat by lia.
      rewrite lookup_write_run_in by (rewrite length_replicate; lia).
      apply lookup_replicate_2. lia.
    + intros i Hi.
      assert (length (take 8 cols) = 8%nat) as Ht
        by (rewrite length_take; lia).
      destruct (decide (i < Z.to_nat d * 8)%nat).
      * unfold b1. by rewrite !lookup_write_run_lt.
      * unfold b1.
        rewrite !lookup_write_run_ge; rewrite ?length_replicate; [done|lia..].
  - rewrite (letter_fits d code font cols) by done.
    destruct redraw.
    + rewrite flush_ok
        by (apply wf_with_buffer; [done | by rewrite length_write_run]).
      by eexists.
    + by eexists.
Qed.

Lemma letter_overflow_clears_device_witness :
  exists b' : list Z,
    letter 1 65 (fun _ => Some [21;22;23;24;25;26;27;28;29]) false
      (mkDevice 2 [1;2;3;4;5;6;7;8;9;10;11;12;13;14;15;16] [])
    = (Raise (OverflowError "Font for '65' too large for display"),
       mkDevice 2 b' ([] ++ flush_transfers b' 2))
    /\ length b' = 16%nat
    /\ (forall i : nat, 1 * 8 <= Z.of_nat i < 1 * 8 + 8 -> b' !! i = Some 0)
    /\ (forall i : nat, ~ (1 * 8 <= Z.of_nat i < 1 * 8 + 8) ->
        b' !! i = [1;2;3;4;5;6;7;8;9;10;11;12;13;14;15;16] !! i).
Proof.
  apply (letter_overflow_clears_device
           (mkDevice 2 [1;2;3;4;5;6;7;8;9;10;11;12;13;14;15;16] [])
           1 65 (fun _ => Some [21;22;23;24;25;26;27;28;29])
           [21;22;23;24;25;26;27;28;29] false).
  - split; [simpl; lia | reflexivity].
  - simpl. lia.
  - lia.
  - reflexivity.
  - simpl. lia.
Defined.

(** C10: on a well-formed object, for an in-range device [d] and a code in
    [0, 256) whose font entry has [n < 8] column values, [letter] succeeds;
    the buffer keeps its length, the [n] values sit at the indices
    [d*8 .. d*8+n-1] in order, and every other byte, the remaining [8-n]
    bytes of device [d] included, is as before. *)
Theorem letter_short_glyph_keeps_rest self d code font cols redraw :
  wf self -> 0 <= d < _cascaded self ->
  0 <= code < 256 -> font code = Some cols ->
  (length cols < 8)%nat ->
  exists self' : Device,
    letter d code font redraw self = (Ok tt, self')
    /\ _cascaded self' = _cascaded self
    /\ length (_buffer self') = length (_buffer self)
    /\ (forall j : nat, (j < length cols)%nat ->
        _buffer self' !! (Z.to_nat d * 8 + j)%nat = cols !! j)
    /\ (forall i : nat,
        ~ (Z.to_nat d * 8 <= i < Z.to_nat d * 8 + length cols)%nat ->
        _buffer self' !! i = _buffer self !! i).
Proof.
  intros Hwf Hd Hcode Hfont Hlen.
  set (b' := write_run (_buffer self) (Z.to_nat d * 8) cols).
  assert (exists log,
            letter d code font redraw self
            = (Ok tt, mkDevice (_cascaded self) b' log)) as [log Hrun].
  { rewrite (letter_fits d code font cols) by (done || lia). fold b'.
    destruct redraw.
    - rewrite flush_ok
        by (apply wf_with_buffer; [done | apply length_write_run]).
      by eexists.
    - by eexists. }
  exists (mkDevice (_cascaded self) b' log).
  split; [done|]. split; [done|]. cbn [_buffer].
  split; [apply length_write_run|].
  destruct Hwf as [Hc Hl]. unfold NUM_DIGITS in Hl. split.
  - intros j Hj. apply lookup_write_run_in; lia.
  - intros i Hi. destruct (decide (i < Z.to_nat d * 8)%nat).
    + by apply lookup_write_run_lt.
    + apply lookup_write_run_ge. lia.
Qed.

Lemma letter_short_glyph_keeps_rest_witness :
  exists self' : Device,
    letter 1 65 (fun _ => Some [21;22;23]) true
      (mkDevice 2 [1;2;3;4;5;6;7;8;9;10;11;12;13;14;15;16] [])
    = (Ok tt, self')
    /\ _cascaded self' = 2
    /\ length (_buffer self') = 16%nat
    /\ (forall j : nat, (j < 3)%nat ->
        _buffer self' !! (Z.to_nat 1 * 8 + j)%nat = [21;22;23] !! j)
    /\ (forall i : nat,
        ~ (Z.to_nat 1 * 8 <= i < Z.to_nat 1 * 8 + 3)%nat ->
        _buffer self' !! i
        = [1;2;3;4;5;6;7;8;9;10;11;12;13;14;15;16] !! i).
Proof.
  apply (letter_short_glyph_keeps_rest
           (mkDevice 2 [1;2;3;4;5;6;7;8;9;10;11;12;13;14;15;16] [])
           1 65 (fun _ => Some [21;22;23]) [21;22;23] true).
  - split; [simpl; lia | reflexivity].
  - simpl. lia.
  - lia.
  - reflexivity.
  - simpl. lia.
Defined.

(** ** Horizontal scrolling *)

Lemma scroll_left_ok redraw self :
  wf self ->
  scroll_left redraw self
  = (if redraw then flush else ret tt)
      (with_buffer self (delete 0%nat (_buffer self) ++ [0])).
Proof.
  intros [Hc Hlen]. unfold NUM_DIGITS in Hlen.
  unfold scroll_left, bind at 1.
  by rewrite buffer_delitem_ok by lia.
Qed.

Lemma scroll_right_ok redraw self :
  wf self ->
  scroll_right redraw self
  = (if redraw then flush else ret tt)
      (with_buffer self (0 :: delete 7%nat (_buffer self))).
Proof.
  intros [Hc Hlen]. unfold NUM_DIGITS in Hlen.
  unfold scroll_right, bind at 1.
  by rewrite buffer_delitem_ok by (unfold NUM_DIGITS; lia).
Qed.

(** On a single chip the byte at index 7 is the last one, and
    [scroll_right] drops it. *)
Lemma scroll_right_single_chip self :
  wf self -> _cascaded self = 1 ->
  scroll_right false self
  = (Ok tt, with_buffer self (0 :: take 7 (_buffer self))).
Proof.
  intros Hwf Hone. rewrite scroll_right_ok by done. cbn [ret].
  destruct Hwf as [_ Hlen]. rewrite Hone in Hlen. unfold NUM_DIGITS in Hlen.
  unfold ret. do 3 f_equal.
  destruct (_buffer self) as [|b0 [|b1 [|b2 [|b3 [|b4 [|b5 [|b6 [|b7 [|]]]]]]]]];
    cbn in Hlen; try lia. done.
Qed.

(** [scroll_left] drops the first byte of the whole strip and appends a
    zero, whatever the number of chips. *)
Lemma scroll_left_whole_strip self :
  wf self ->
  scroll_left false self
  = (Ok tt, with_buffer self (drop 1 (_buffer self) ++ [0])).
Proof.
  intros Hwf. rewrite scroll_left_ok by done.
  by destruct (_buffer self).
Qed.

(** C2: on two chips [scroll_right] deletes the byte at index 7, the last
    byte of the first chip, and not the last byte of the strip at index
    15: the bytes of the second chip stay where they are, so nothing
    crosses the chip boundary and the byte 16 at the far end survives. *)
Theorem scroll_right_two_chips_drops_index_7 :
  scroll_right false
    (mkDevice 2 [1; 2; 3; 4; 5; 6; 7; 8; 9; 10; 11; 12; 13; 14; 15; 16] [])
  = (Ok tt,
     mkDevice 2 [0; 1; 2; 3; 4; 5; 6; 7; 9; 10; 11; 12; 13; 14; 15; 16] []).
Proof. reflexivity. Qed.

(** ** Vertical scrolling *)

Lemma scroll_up_ok redraw self :
  scroll_up redraw self
  = (if redraw then flush else ret tt)
      (with_buffer self ((fun value => Z.shiftr value 1) <$> _buffer self)).
Proof. done. Qed.

Lemma scroll_down_ok redraw self :
  scroll_down redraw self
  = (if redraw then flush else ret tt)
      (with_buffer self ((fun value => Z.shiftl value 1) <$> _buffer self)).
Proof. done. Qed.

(** [scroll_up] halves every byte, and a buffer of 8-bit values stays
    one. *)
Lemma scroll_up_stays_in_byte_range self :
  Forall (fun v => 0 <= v < 256) (_buffer self) ->
  exists b' : list Z,
    scroll_up false self = (Ok tt, with_buffer self b')
    /\ b' = (fun v => Z.shiftr v 1) <$> _buffer self
    /\ Forall (fun v => 0 <= v < 256) b'.
Proof.
  intros Hb. eexists. split; [done|]. split; [done|].
  apply Forall_fmap. eapply Forall_impl; [done|].
  intros v [Hlo Hhi]. unfold compose. rewrite Z.shiftr_div_pow2 by lia.
  change (2 ^ 1) with 2. split.
  - apply Z.div_pos; lia.
  - apply Z.div_lt_upper_bound; lia.
Qed.

(** C3: [scroll_down] doubles every byte and masks nothing, so a byte with
    bit 7 set becomes 256: bit 8 is set, the value is no 8-bit value, and a
    following [scroll_up] brings the pixel back into row 7. *)
Theorem scroll_down_keeps_bit_above_7 :
  scroll_down false (mkDevice 1 [128; 0; 0; 0; 0; 0; 0; 1] [])
  = (Ok tt, mkDevice 1 [256; 0; 0; 0; 0; 0; 0; 2] [])
  /\ Z.testbit 256 8 = true
  /\ (scroll_down false ;; scroll_up false)
       (mkDevice 1 [128; 0; 0; 0; 0; 0; 0; 1] [])
     = (Ok tt, mkDevice 1 [128; 0; 0; 0; 0; 0; 0; 1] []).
Proof. repeat split. Qed.

(** ** pixel *)

Lemma pixel_ok x y value self :
  wf self ->
  0 <= x < Z.of_nat (length (_buffer self)) -> 0 <= y < 8 ->
  pixel x y value false self
  = (Ok tt,
     with_buffer self
       (<[Z.to_nat y :=
            if truthy value
            then Z.lor (_buffer self !!! Z.to_nat y) (Z.shiftl 1 x)
            else Z.land (_buffer self !!! Z.to_nat y)
                        (Z.lnot (Z.shiftl 1 x))]> (_buffer self))).
Proof.
  intros [Hc Hlen] Hx Hy. unfold NUM_DIGITS in Hlen.
  unfold pixel, bind at 1, get_buffer.
  rewrite bool_decide_true by lia. unfold bind at 1. cbn [assert ret].
  rewrite bool_decide_true by lia. unfold bind at 1. cbn [assert ret].
  unfold bind at 1. rewrite getitem_ok by lia.
  unfold bind at 1.
  destruct (truthy value); by rewrite buffer_setitem_ok by lia.
Qed.

(** On the diagonal the two coordinates coincide, and [pixel 4 4 1] sets
    bit 4 of byte 4. *)
Lemma pixel_4_4_sets_bit_4_of_byte_4 self :
  wf self ->
  pixel 4 4 1 false self
  = (Ok tt,
     with_buffer self
       (<[4%nat := Z.lor (_buffer self !!! 4%nat) 16]> (_buffer self))).
Proof.
  intros Hwf. rewrite pixel_ok; [done..| |lia].
  destruct Hwf as [Hc Hlen]. unfold NUM_DIGITS in Hlen. lia.
Qed.

(** C1: [pixel x y] uses [y] as the buffer index and [x] as the bit
    number.  On one blank chip [pixel 0 1 1] leaves byte 0 at zero and sets
    bit 0 of byte 1, where bit 1 of byte 0 was asked for; on four chips
    [pixel 9 0 1] passes both range checks and stores 512 in byte 0, which
    is no 8-bit value, leaving byte 9 untouched. *)
Theorem pixel_swaps_index_and_bit :
  pixel 0 1 1 false (mkDevice 1 [0; 0; 0; 0; 0; 0; 0; 0] [])
  = (Ok tt, mkDevice 1 [0; 1; 0; 0; 0; 0; 0; 0] [])
  /\ pixel 9 0 1 false (mkDevice 4 (replicate 32 0) [])
     = (Ok tt, mkDevice 4 (512 :: replicate 31 0) []).
Proof. split; reflexivity. Qed.

(** ** The shape is kept by every method *)

Lemma preserves_ret {A} (a : A) : preserves (ret a).
Proof. by intros self Hwf. Qed.

Lemma preserves_raise {A} e : preserves (@raise A e).
Proof. by intros self Hwf. Qed.

Lemma preserves_bind {A B} (m : M A) (k : A -> M B) :
  preserves m -> (forall a, preserves (k a)) -> preserves (bind m k).
Proof.
  intros Hm Hk self Hwf. unfold bind.
  destruct (Hm self Hwf) as [Hwf1 Hc1].
  destruct (m self) as [[a|e] self1]; cbn [snd] in *; [|done].
  destruct (Hk a self1 Hwf1) as [Hwf2 Hc2]. split; [done|congruence].
Qed.

Lemma preserves_assert cond msg : preserves (assert cond msg).
Proof. destruct cond; [apply preserves_ret | apply preserves_raise]. Qed.

Lemma preserves_for_each {A} (xs : list A) (body : A -> M unit) :
  (forall x, preserves (body x)) -> preserves (for_each xs body).
Proof.
  intros Hbody. induction xs as [|x xs IH]; [apply preserves_ret|].
  cbn [for_each]. by apply preserves_bind.
Qed.

Lemma preserves_get_buffer : preserves get_buffer.
Proof. by intros self Hwf. Qed.

Lemma preserves_get_cascaded : preserves get_cascaded.
Proof. by intros self Hwf. Qed.

Lemma preserves_set_buffer_same_length (f : list Z -> list Z) :
  (forall b, length (f b) = length b) ->
  preserves (b <- get_buffer ;; set_buffer (f b)).
Proof.
  intros Hf self Hwf. cbn. split; [|done]. by apply wf_with_buffer.
Qed.

Lemma preserves_getitem l i : preserves (getitem l i).
Proof.
  intros self Hwf. unfold getitem.
  destruct (norm_index l i) as [k|]; [|done]. by destruct (l !! k).
Qed.

Lemma preserves_font_getitem font code : preserves (font_getitem font code).
Proof. intros self Hwf. unfold font_getitem. by destruct (font code). Qed.

Lemma preserves_buffer_setitem i v : preserves (buffer_setitem i v).
Proof.
  intros self Hwf. unfold buffer_setitem, bind, get_buffer.
  destruct (norm_index (_buffer self) i) as [k|]; [|done].
  cbn. split; [|done]. apply wf_with_buffer; [done|apply length_insert].
Qed.

Lemma preserves_write data : preserves (_write data).
Proof. intros self Hwf. split; [by apply wf_with_spi | done]. Qed.

Lemma preserves_values_from position devs :
  preserves (_values_from position devs).
Proof.
  induction devs as [|d devs IH]; [apply preserves_ret|].
  cbn [_values_from].
  apply preserves_bind; [apply preserves_get_buffer|]. intros b.
  apply preserves_bind; [apply preserves_getitem|]. intros v.
  apply preserves_bind; [done|]. intros rest. apply preserves_ret.
Qed.

Lemma preserves_flush : preserves flush.
Proof.
  apply preserves_for_each. intros posn.
  apply preserves_bind; [|intros; apply preserves_write].
  apply preserves_bind; [apply preserves_get_cascaded|].
  intros c. apply preserves_values_from.
Qed.

Lemma preserves_redraw (redraw : bool) :
  preserves (if redraw then flush else ret tt).
Proof. destruct redraw; [apply preserves_flush | apply preserves_ret]. Qed.

Lemma preserves_command register data : preserves (command register data).
Proof.
  apply preserves_bind; [apply preserves_assert|]. intros _.
  apply preserves_bind; [apply preserves_get_cascaded|]. intros c.
  apply preserves_write.
Qed.

Lemma preserves_brightness intensity : preserves (brightness intensity).
Proof.
  apply preserves_bind; [apply preserves_assert|]. intros _.
  apply preserves_command.
Qed.

Lemma preserves_set_byte deviceId position value redraw :
  preserves (set_byte deviceId position value redraw).
Proof.
  apply preserves_bind; [apply preserves_get_cascaded|]. intros c.
  apply preserves_bind; [apply preserves_assert|]. intros _.
  apply preserves_bind; [apply preserves_assert|]. intros _.
  apply preserves_bind; [apply preserves_buffer_setitem|]. intros _.
  apply preserves_redraw.
Qed.

Lemma preserves_clear deviceId : preserves (clear deviceId).
Proof.
  apply preserves_bind; [apply preserves_get_cascaded|]. intros c.
  apply preserves_bind; [apply preserves_assert|]. intros _.
  destruct deviceId as [d|];
    (apply preserves_bind; [|intros; apply preserves_flush]);
    apply preserves_for_each; intros dev;
    apply preserves_for_each; intros position;
    apply preserves_set_byte.
Qed.

Lemma redraw_after_store_keeps_shape (redraw : bool) self b :
  wf self -> length b = length (_buffer self) ->
  wf ((if redraw then flush else ret tt) (with_buffer self b)).2
  /\ _cascaded ((if redraw then flush else ret tt) (with_buffer self b)).2
     = _cascaded self.
Proof.
  intros Hwf Hlen.
  by destruct (preserves_redraw redraw (with_buffer self b)
                 (wf_with_buffer _ _ Hwf Hlen)).
Qed.

Lemma preserves_scroll_left redraw : preserves (scroll_left redraw).
Proof.
  intros self Hwf. rewrite scroll_left_ok by done.
  apply redraw_after_store_keeps_shape; [done|].
  destruct Hwf as [Hc Hlen]. unfold NUM_DIGITS in Hlen.
  rewrite length_app. destruct (_buffer self); cbn in *; lia.
Qed.

Lemma preserves_scroll_right redraw : preserves (scroll_right redraw).
Proof.
  intros self Hwf. rewrite scroll_right_ok by done.
  apply redraw_after_store_keeps_shape; [done|].
  destruct Hwf as [Hc Hlen]. unfold NUM_DIGITS in Hlen.
  cbn [length]. rewrite length_delete by (apply lookup_lt_is_Some_2; lia).
  lia.
Qed.

Lemma preserves_scroll_up redraw : preserves (scroll_up redraw).
Proof.
  intros self Hwf. rewrite scroll_up_ok.
  apply redraw_after_store_keeps_shape; [done|apply length_fmap].
Qed.

Lemma preserves_scroll_down redraw : preserves (scroll_down redraw).
Proof.
  intros self Hwf. rewrite scroll_down_ok.
  apply redraw_after_store_keeps_shape; [done|apply length_fmap].
Qed.

Lemma preserves_letter_loop deviceId asciiCode col vals :
  preserves (letter_loop deviceId asciiCode col vals).
Proof.
  revert col. induction vals as [|v vals IH]; intros col;
    [apply preserves_ret|].
  cbn [letter_loop]. case_bool_decide.
  - apply preserves_bind; [apply preserves_clear|].
    intros _. apply preserves_raise.
  - apply preserves_bind; [apply preserves_set_byte|]. intros _. apply IH.
Qed.

Lemma preserves_letter deviceId asciiCode font redraw :
  preserves (letter deviceId asciiCode font redraw).
Proof.
  apply preserves_bind; [apply preserves_assert|]. intros _.
  apply preserves_bind; [apply preserves_font_getitem|]. intros cols.
  apply preserves_bind; [apply preserves_letter_loop|]. intros _.
  apply preserves_redraw.
Qed.

Lemma preserves_show_message text font : preserves (show_message text font).
Proof.
  apply preserves_bind; [apply preserves_get_cascaded|]. intros c.
  apply preserves_for_each. intros asciiCode.
  apply preserves_bind; [apply preserves_font_getitem|]. intros cols.
  apply preserves_for_each. intros value.
  apply preserves_bind; [apply preserves_scroll_left|]. intros _.
  apply preserves_bind; [apply preserves_buffer_setitem|]. intros _.
  apply preserves_flush.
Qed.

Lemma preserves_str_filter s2 vals : preserves (str_filter s2 vals).
Proof.
  revert s2. induction vals as [|val vals IH]; intros s2;
    [apply preserves_ret|].
  cbn [str_filter]. apply preserves_bind; [|intros keep; apply IH].
  destruct (truthy val); [apply preserves_ret|].
  apply preserves_bind; [apply preserves_getitem|].
  intros last_. apply preserves_ret.
Qed.

Lemma preserves_str_chars font s2 text : preserves (str_chars font s2 text).
Proof.
  revert s2. induction text as [|ch text IH]; intros s2;
    [apply preserves_ret|].
  cbn [str_chars].
  apply preserves_bind; [apply preserves_font_getitem|]. intros cols.
  apply preserves_bind; [apply preserves_str_filter|]. intros s2'. apply IH.
Qed.

Lemma preserves_str text font : preserves (str text font).
Proof.
  apply preserves_bind; [apply preserves_str_chars|]. intros _.
  apply preserves_flush.
Qed.

Lemma preserves_pixel x y value redraw : preserves (pixel x y value redraw).
Proof.
  apply preserves_bind; [apply preserves_get_buffer|]. intros b.
  apply preserves_bind; [apply preserves_assert|]. intros _.
  apply preserves_bind; [apply preserves_assert|]. intros _.
  apply preserves_bind; [apply preserves_getitem|]. intros old.
  apply preserves_bind; [|intros _; apply preserves_redraw].
  destruct (truthy value); apply preserves_buffer_setitem.
Qed.

Lemma preserves_run_call c : preserves (run_call c).
Proof.
  destruct c; cbn [run_call].
  - apply preserves_command.
  - apply preserves_clear.
  - apply preserves_flush.
  - apply preserves_brightness.
  - apply preserves_set_byte.
  - apply preserves_scroll_left.
  - apply preserves_scroll_right.
  - apply preserves_letter.
  - apply preserves_scroll_up.
  - apply preserves_scroll_down.
  - apply preserves_show_message.
  - apply preserves_str.
  - apply preserves_pixel.
Qed.

(** ** Construction *)

Lemma length_list_mul {A} (l : list A) (n : Z) :
  length (list_mul l n) = (Z.to_nat n * length l)%nat.
Proof.
  unfold list_mul. induction (Z.to_nat n) as [|k IH]; [done|].
  change (mjoin (replicate (S k) l)) with (l ++ mjoin (replicate k l)).
  rewrite length_app, IH. lia.
Qed.

Lemma init_ok cascaded :
  0 < cascaded ->
  exists self,
    __init__ cascaded = Ok self
    /\ wf self /\ _cascaded self = cascaded.
Proof.
  intros Hc. unfold __init__.
  rewrite bool_decide_true by lia. cbn [negb].
  set (self0 := {| _cascaded := cascaded; _buffer := _; _spi := [] |}).
  assert (wf self0) as Hwf0.
  { split; [done|]. cbn [_buffer _cascaded self0].
    rewrite !length_list_mul. cbn [length]. unfold NUM_DIGITS. lia. }
  set (body := bind _ _).
  assert (preserves body) as Hbody.
  { repeat (apply preserves_bind;
            [first [apply preserves_command | apply preserves_brightness]
            | intros _]).
    apply preserves_clear. }
  assert (exists self, body self0 = (Ok tt, self)) as [self Hrun].
  { unfold body.
    do 4 (unfold bind at 1; rewrite command_ok by (vm_compute; done)).
    unfold bind at 1, brightness.
    rewrite bool_decide_true by lia. unfold bind at 1. cbn [assert ret].
    rewrite command_ok by (vm_compute; done).
    rewrite clear_all_ok by by repeat apply wf_with_spi.
    rewrite flush_ok; [by eexists|].
    apply wf_with_buffer; [by repeat apply wf_with_spi|].
    by rewrite length_replicate. }
  exists self. rewrite Hrun. split; [done|].
  destruct (Hbody self0 Hwf0) as [Hwf Hcas]. rewrite Hrun in *. done.
Qed.

Lemma init_rejected cascaded :
  cascaded < 1 ->
  __init__ cascaded
  = Raise (AssertionError (Some "Must have at least one device!")).
Proof. intros Hc. unfold __init__. by rewrite bool_decide_false by lia. Qed.

Lemma reachable_wf cascaded self :
  reachable cascaded self -> wf self /\ _cascaded self = cascaded.
Proof.
  induction 1 as [self Hinit | self c _ [Hwf Hcas]].
  - destruct (decide (0 < cascaded)) as [Hc|Hc].
    + destruct (init_ok cascaded Hc) as (self' & Hrun & Hwf & Hcas).
      rewrite Hrun in Hinit. by injection Hinit as <-.
    + rewrite init_rejected in Hinit by lia. done.
  - destruct (preserves_run_call c self Hwf) as [Hwf' Hcas'].
    split; [done|congruence].
Qed.

(** A scroll call on a well-formed object returns. *)
Lemma scroll_call_returns c self :
  is_scroll c = true -> wf self ->
  run_call c self = (Ok tt, (run_call c self).2).
Proof.
  intros Hs Hwf.
  assert (forall (redraw : bool) s, wf s ->
            (if redraw then flush else ret tt) s
            = (Ok tt, ((if redraw then flush else ret tt) s).2)) as Hredraw.
  { intros [] s Hs'; [by rewrite flush_ok | done]. }
  destruct c; try done; cbn [run_call].
  - rewrite scroll_left_ok by done. apply Hredraw.
    apply wf_with_buffer; [done|].
    destruct Hwf as [Hc Hlen]. unfold NUM_DIGITS in Hlen.
    rewrite length_app. destruct (_buffer self); cbn in *; lia.
  - rewrite scroll_right_ok by done. apply Hredraw.
    apply wf_with_buffer; [done|].
    destruct Hwf as [Hc Hlen]. unfold NUM_DIGITS in Hlen.
    cbn [length]. rewrite length_delete by (apply lookup_lt_is_Some_2; lia).
    lia.
  - rewrite scroll_up_ok. apply Hredraw.
    apply wf_with_buffer; [done|apply length_fmap].
  - rewrite scroll_down_ok. apply Hredraw.
    apply wf_with_buffer; [done|apply length_fmap].
Qed.

Lemma scroll_sequence_returns cascaded ops self :
  reachable cascaded self ->
  Forall (fun c => is_scroll c = true) ops ->
  exists self',
    for_each ops run_call self = (Ok tt, self')
    /\ reachable cascaded self'.
Proof.
  intros Hreach Hops. revert self Hreach.
  induction Hops as [|c ops Hc _ IH]; intros self Hreach.
  - by exists self.
  - cbn [for_each]. unfold bind.
    destruct (reachable_wf _ _ Hreach) as [Hwf _].
    rewrite (scroll_call_returns c self Hc Hwf).
    apply IH. by apply reachable_call.
Qed.

(** C5: construction with at least one chip succeeds with a buffer of
    [8 * cascaded] bytes, and from any reachable object every sequence of
    [scroll_left], [scroll_right], [scroll_up] and [scroll_down] calls, in
    any order and with any redraw flags, returns and leaves a reachable
    object whose buffer has [8 * cascaded] bytes (the empty sequence gives
    the length at every reachable object).  Construction with fewer than
    one chip fails its assertion. *)
Theorem buffer_length_is_eight_per_chip cascaded :
  (1 <= cascaded ->
   (exists self,
      __init__ cascaded = Ok self
      /\ Z.of_nat (length (_buffer self)) = 8 * cascaded)
   /\ (forall self ops,
       reachable cascaded self ->
       Forall (fun c => is_scroll c = true) ops ->
       exists self',
         for_each ops run_call self = (Ok tt, self')
         /\ reachable cascaded self'
         /\ Z.of_nat (length (_buffer self')) = 8 * cascaded))
  /\ (cascaded < 1 ->
      __init__ cascaded
      = Raise (AssertionError (Some "Must have at least one device!"))).
Proof.
  split; [intros Hc; split|apply init_rejected].
  - destruct (init_ok cascaded) as (self & Hrun & [_ Hlen] & Hcas); [lia|].
    exists self. split; [done|]. by rewrite <- Hcas.
  - intros self ops Hreach Hops.
    destruct (scroll_sequence_returns cascaded ops self Hreach Hops)
      as (self' & Hrun & Hreach').
    exists self'. split; [done|]. split; [done|].
    destruct (reachable_wf _ _ Hreach') as [[_ Hlen] Hcas].
    by rewrite <- Hcas.
Qed.

Lemma buffer_length_is_eight_per_chip_witness :
  (exists self,
     __init__ 4 = Ok self /\ Z.of_nat (length (_buffer self)) = 8 * 4)
  /\ __init__ 0
     = Raise (AssertionError (Some "Must have at least one device!")).
Proof.
  split.
  - apply (buffer_length_is_eight_per_chip 4). lia.
  - apply (buffer_length_is_eight_per_chip 0). lia.
Defined.

(** * Further properties of the driver *)

(** ** set_byte and clear: read back and argument checks *)

Lemma set_byte_stores deviceId position value redraw self :
  wf self ->
  0 <= deviceId < _cascaded self ->
  MAX7219_REG_DIGIT0 <= position <= MAX7219_REG_DIGIT7 ->
  set_byte deviceId position value redraw self
  = (if redraw then flush else ret tt)
      (with_buffer self
         (<[Z.to_nat (deviceId * NUM_DIGITS + position - MAX7219_REG_DIGIT0)
            := value]> (_buffer self))).
Proof.
  intros [Hc Hlen] Hd Hp. unfold set_byte, bind at 1, get_cascaded.
  rewrite bool_decide_true by lia. unfold bind at 1. cbn [assert ret].
  rewrite bool_decide_true by lia. unfold bind at 1. cbn [assert ret].
  unfold bind at 1. rewrite buffer_setitem_ok; [done|].
  unfold NUM_DIGITS, MAX7219_REG_DIGIT0, MAX7219_REG_DIGIT7 in *. lia.
Qed.

(** X1: with valid arguments [set_byte d p v] returns; the byte at offset
    [d*8 + (p - DIGIT0)] then reads back as [v], every other byte is as
    before, and the bus receives nothing without [redraw] and exactly the
    flush of the new buffer with it. *)
Theorem set_byte_read_back self d p v redraw :
  wf self ->
  0 <= d < _cascaded self ->
  MAX7219_REG_DIGIT0 <= p <= MAX7219_REG_DIGIT7 ->
  exists b' : list Z,
    set_byte d p v redraw self
    = (Ok tt,
       mkDevice (_cascaded self) b'
         (_spi self
          ++ if redraw then flush_transfers b' (_cascaded self) else []))
    /\ length b' = length (_buffer self)
    /\ b' !! Z.to_nat (d * 8 + (p - MAX7219_REG_DIGIT0)) = Some v
    /\ (forall i : nat,
        i <> Z.to_nat (d * 8 + (p - MAX7219_REG_DIGIT0)) ->
        b' !! i = _buffer self !! i).
Proof.
  intros Hwf Hd Hp.
  set (k := Z.to_nat (d * 8 + (p - MAX7219_REG_DIGIT0))).
  exists (<[k := v]> (_buffer self)).
  assert (Z.to_nat (d * NUM_DIGITS + p - MAX7219_REG_DIGIT0) = k) as Hk
    by (unfold k, NUM_DIGITS; lia).
  split; [|split; [apply length_insert|split]].
  - rewrite set_byte_stores by done. rewrite Hk. destruct redraw.
    + rewrite flush_ok; [done|].
      apply wf_with_buffer; [done|apply length_insert].
    + cbn. by rewrite app_nil_r.
  - apply list_lookup_insert_eq.
    destruct Hwf as [Hc Hlen].
    unfold k, NUM_DIGITS, MAX7219_REG_DIGIT0, MAX7219_REG_DIGIT7 in *. lia.
  - intros i Hi. by apply list_lookup_insert_ne.
Qed.

Lemma set_byte_read_back_witness :
  exists b' : list Z,
    set_byte 1 MAX7219_REG_DIGIT2 77 false
      (mkDevice 2 [1;2;3;4;5;6;7;8;9;10;11;12;13;14;15;16] [])
    = (Ok tt, mkDevice 2 b' ([] ++ []))
    /\ length b' = 16%nat
    /\ b' !! Z.to_nat (1 * 8 + (MAX7219_REG_DIGIT2 - MAX7219_REG_DIGIT0))
       = Some 77
    /\ (forall i : nat,
        i <> Z.to_nat (1 * 8 + (MAX7219_REG_DIGIT2 - MAX7219_REG_DIGIT0)) ->
        b' !! i = [1;2;3;4;5;6;7;8;9;10;11;12;13;14;15;16] !! i).
Proof.
  apply (set_byte_read_back
           (mkDevice 2 [1;2;3;4;5;6;7;8;9;10;11;12;13;14;15;16] [])
           1 MAX7219_REG_DIGIT2 77 false).
  - split; [simpl; lia | reflexivity].
  - simpl. lia.
  - unfold MAX7219_REG_DIGIT0, MAX7219_REG_DIGIT2, MAX7219_REG_DIGIT7. lia.
Defined.

(** X2: a device id outside [0, cascaded) or a position outside
    [DIGIT0, DIGIT7] makes [set_byte] fail an assertion before anything is
    stored or sent: the object is as it was, with or without [redraw]. *)
Theorem set_byte_rejects_bad_arguments self d p v redraw :
  ~ (0 <= d < _cascaded self
     /\ MAX7219_REG_DIGIT0 <= p <= MAX7219_REG_DIGIT7) ->
  exists msg : option string,
    set_byte d p v redraw self = (Raise (AssertionError msg), self).
Proof.
  intros Hbad. unfold set_byte, bind at 1, get_cascaded.
  destruct (decide (0 <= d < _cascaded self)) as [Hd|Hd].
  - rewrite bool_decide_true by lia. unfold bind at 1. cbn [assert ret].
    rewrite bool_decide_false by (intros ?; apply Hbad; lia).
    by eexists.
  - rewrite bool_decide_false by lia. by eexists.
Qed.

Lemma set_byte_rejects_bad_arguments_witness :
  exists msg : option string,
    set_byte 0 MAX7219_REG_DECODEMODE 1 true
      (mkDevice 1 [1;2;3;4;5;6;7;8] [])
    = (Raise (AssertionError msg), mkDevice 1 [1;2;3;4;5;6;7;8] []).
Proof.
  apply (set_byte_rejects_bad_arguments
           (mkDevice 1 [1;2;3;4;5;6;7;8] []) 0 MAX7219_REG_DECODEMODE 1 true).
  unfold MAX7219_REG_DIGIT0, MAX7219_REG_DIGIT7, MAX7219_REG_DECODEMODE.
  simpl. lia.
Defined.

(** X3: [clear] with a device id that is neither zero nor in
    [0, cascaded) fails its assertion, with the message holding the id, and
    leaves buffer and bus as they were. *)
Theorem clear_rejects_bad_device self d :
  d <> 0 -> ~ (0 <= d < _cascaded self) ->
  clear (Some d) self
  = (Raise (AssertionError (Some ("Invalid deviceId: " +:+ pretty d))), self).
Proof.
  intros Hnz Hd. unfold clear, bind at 1, get_cascaded.
  unfold truthy. rewrite (proj2 (Z.eqb_neq d 0) Hnz). cbn [negb orb].
  by rewrite bool_decide_false by lia.
Qed.

Lemma clear_rejects_bad_device_witness :
  clear (Some 2) (mkDevice 2 [1;2;3;4;5;6;7;8;9;10;11;12;13;14;15;16] [])
  = (Raise (AssertionError (Some "Invalid deviceId: 2")),
     mkDevice 2 [1;2;3;4;5;6;7;8;9;10;11;12;13;14;15;16] []).
Proof.
  apply (clear_rejects_bad_device
           (mkDevice 2 [1;2;3;4;5;6;7;8;9;10;11;12;13;14;15;16] []) 2).
  - lia.
  - simpl. lia.
Defined.

(** ** Scrolling: how the operations move the content *)

Lemma all_zero_replicate (l : list Z) :
  Forall (fun v => v = 0) l -> l = replicate (length l) 0.
Proof.
  induction 1 as [|v l -> _ IH]; [done|]. cbn. by rewrite <- IH.
Qed.

Lemma redraw_returns (redraw : bool) self :
  wf self ->
  exists log,
    (if redraw then flush else ret tt) self
    = (Ok tt, with_spi self (_spi self ++ log)).
Proof.
  intros Hwf. destruct redraw.
  - rewrite flush_ok by done. by eexists.
  - exists []. unfold ret, with_spi. rewrite app_nil_r. by destruct self.
Qed.

(** X4: on a blank buffer a [scroll_left] followed by a [scroll_right], or
    the two in the other order, leaves the object exactly as it was. *)
Theorem scroll_left_right_on_blank_is_noop self :
  wf self ->
  Forall (fun v => v = 0) (_buffer self) ->
  (scroll_left false ;; scroll_right false) self = (Ok tt, self)
  /\ (scroll_right false ;; scroll_left false) self = (Ok tt, self).
Proof.
  intros Hwf Hz.
  pose proof Hwf as [Hc Hlen]. unfold NUM_DIGITS in Hlen.
  assert (forall b, Forall (fun v => v = 0) b ->
                    length b = length (_buffer self) ->
                    with_buffer self b = self) as Hsame.
  { intros b Hb Hl. rewrite (all_zero_replicate b Hb), Hl.
    rewrite <- (all_zero_replicate _ Hz). apply with_buffer_same. }
  assert (Forall (fun v => v = 0) (delete 0%nat (_buffer self) ++ [0])) as Hl0.
  { apply Forall_app. split; [by apply Forall_delete | by constructor]. }
  assert (length (delete 0%nat (_buffer self) ++ [0]) = length (_buffer self))
    as Hl1.
  { rewrite length_app. destruct (_buffer self); cbn in *; lia. }
  assert (Forall (fun v => v = 0) (0 :: delete 7%nat (_buffer self))) as Hr0.
  { constructor; [done | by apply Forall_delete]. }
  assert (length (0 :: delete 7%nat (_buffer self)) = length (_buffer self))
    as Hr1.
  { cbn [length]. rewrite length_delete by (apply lookup_lt_is_Some_2; lia).
    lia. }
  split; unfold bind.
  - rewrite scroll_left_ok by done. cbn [ret].
    rewrite (Hsame _ Hl0 Hl1).
    rewrite scroll_right_ok by done. cbn [ret]. unfold ret.
    by rewrite (Hsame _ Hr0 Hr1).
  - rewrite scroll_right_ok by done. cbn [ret].
    rewrite (Hsame _ Hr0 Hr1).
    rewrite scroll_left_ok by done. cbn [ret]. unfold ret.
    by rewrite (Hsame _ Hl0 Hl1).
Qed.

Lemma scroll_left_right_on_blank_is_noop_witness :
  (scroll_left false ;; scroll_right false) (mkDevice 2 (replicate 16 0) [])
  = (Ok tt, mkDevice 2 (replicate 16 0) [])
  /\ (scroll_right false ;; scroll_left false)
       (mkDevice 2 (replicate 16 0) [])
     = (Ok tt, mkDevice 2 (replicate 16 0) []).
Proof.
  apply (scroll_left_right_on_blank_is_noop (mkDevice 2 (replicate 16 0) [])).
  - split; [simpl; lia | reflexivity].
  - simpl. repeat constructor.
Defined.

(** X5: [scroll_left] returns, keeps the buffer length, moves every byte of
    the strip one index down (the byte at [i+1] is afterwards at [i], across
    chip boundaries) and leaves a zero in the last place; the first byte is
    dropped. *)
Theorem scroll_left_shifts_strip self redraw :
  wf self ->
  exists self' : Device,
    scroll_left redraw self = (Ok tt, self')
    /\ length (_buffer self') = length (_buffer self)
    /\ (forall i : nat, (S i < length (_buffer self))%nat ->
        _buffer self' !! i = _buffer self !! S i)
    /\ _buffer self' !! (length (_buffer self) - 1)%nat = Some 0.
Proof.
  intros Hwf. pose proof Hwf as [Hc Hlen]. unfold NUM_DIGITS in Hlen.
  set (b' := delete 0%nat (_buffer self) ++ [0]).
  assert (length b' = length (_buffer self)) as Hl.
  { unfold b'. rewrite length_app. destruct (_buffer self); cbn in *; lia. }
  destruct (redraw_returns redraw (with_buffer self b')) as [log Hrun];
    [by apply wf_with_buffer|].
  eexists. split; [rewrite scroll_left_ok by done; apply Hrun|].
  cbn [_buffer with_spi with_buffer]. split; [done|].
  unfold b'. destruct (_buffer self) as [|b0 b]; [cbn in Hlen; lia|].
  cbn [delete list_delete length]. split.
  - intros i Hi. cbn in Hi. rewrite lookup_app_l by lia. done.
  - replace (S (length b) - 1)%nat with (length b + 0)%nat by lia.
    by rewrite lookup_app_r, Nat.add_comm, Nat.add_sub by lia.
Qed.

Lemma scroll_left_shifts_strip_witness :
  exists self' : Device,
    scroll_left false
      (mkDevice 2 [1;2;3;4;5;6;7;8;9;10;11;12;13;14;15;16] [])
    = (Ok tt, self')
    /\ length (_buffer self') = 16%nat
    /\ (forall i : nat, (S i < 16)%nat ->
        _buffer self' !! i
        = [1;2;3;4;5;6;7;8;9;10;11;12;13;14;15;16] !! S i)
    /\ _buffer self' !! (16 - 1)%nat = Some 0.
Proof.
  apply (scroll_left_shifts_strip
           (mkDevice 2 [1;2;3;4;5;6;7;8;9;10;11;12;13;14;15;16] []) false).
  split; [simpl; lia | reflexivity].
Defined.

(** X6: on a single chip [scroll_right] returns, keeps the buffer length,
    puts a zero in the first place and moves every byte one index up; the
    byte at index 7 is dropped. *)
Theorem scroll_right_shifts_single_chip self redraw :
  wf self -> _cascaded self = 1 ->
  exists self' : Device,
    scroll_right redraw self = (Ok tt, self')
    /\ length (_buffer self') = 8%nat
    /\ _buffer self' !! 0%nat = Some 0
    /\ (forall i : nat, (i < 7)%nat ->
        _buffer self' !! S i = _buffer self !! i).
Proof.
  intros Hwf Hone. pose proof Hwf as [Hc Hlen].
  rewrite Hone in Hlen. unfold NUM_DIGITS in Hlen.
  set (b' := 0 :: delete 7%nat (_buffer self)).
  assert (length b' = length (_buffer self)) as Hl.
  { unfold b'. cbn [length].
    rewrite length_delete by (apply lookup_lt_is_Some_2; lia). lia. }
  destruct (redraw_returns redraw (with_buffer self b')) as [log Hrun];
    [by apply wf_with_buffer|].
  eexists. split; [rewrite scroll_right_ok by done; apply Hrun|].
  cbn [_buffer with_spi with_buffer]. split; [lia|]. split; [done|].
  intros i Hi. unfold b'. cbn [lookup list_lookup].
  by apply list_lookup_delete_lt.
Qed.

Lemma scroll_right_shifts_single_chip_witness :
  exists self' : Device,
    scroll_right false (mkDevice 1 [1;2;3;4;5;6;7;8] []) = (Ok tt, self')
    /\ length (_buffer self') = 8%nat
    /\ _buffer self' !! 0%nat = Some 0
    /\ (forall i : nat, (i < 7)%nat ->
        _buffer self' !! S i = [1;2;3;4;5;6;7;8] !! i).
Proof.
  apply (scroll_right_shifts_single_chip
           (mkDevice 1 [1;2;3;4;5;6;7;8] []) false).
  - split; [simpl; lia | reflexivity].
  - reflexivity.
Defined.

(** X7: [scroll_up] followed by [scroll_down] returns and keeps every byte
    in place with its row 0 (bit 0) cleared and all its other bits as they
    were: the row scrolled off the top does not come back. *)
Theorem scroll_up_then_down_clears_row_0 self :
  exists b' : list Z,
    (scroll_up false ;; scroll_down false) self
    = (Ok tt, with_buffer self b')
    /\ length b' = length (_buffer self)
    /\ (forall (i : nat) (v : Z), _buffer self !! i = Some v ->
        exists v' : Z,
          b' !! i = Some v'
          /\ Z.testbit v' 0 = false
          /\ (forall n : Z, 0 < n -> Z.testbit v' n = Z.testbit v n)).
Proof.
  exists ((fun value => Z.shiftl value 1)
            <$> ((fun value => Z.shiftr value 1) <$> _buffer self)).
  split; [done|]. split; [by rewrite !length_fmap|].
  intros i v Hv. exists (Z.shiftl (Z.shiftr v 1) 1).
  split; [by rewrite !list_lookup_fmap, Hv|]. split.
  - rewrite Z.shiftl_spec by lia. by apply Z.testbit_neg_r.
  - intros n Hn. rewrite Z.shiftl_spec, Z.shiftr_spec by lia.
    f_equal. lia.
Qed.

Lemma scroll_up_repeated (n : nat) self :
  for_each (replicate n tt) (fun _ => scroll_up false) self
  = (Ok tt,
     with_buffer self
       ((fun value => Z.shiftr value (Z.of_nat n)) <$> _buffer self)).
Proof.
  revert self. induction n as [|n IH]; intros self.
  - cbn [replicate for_each]. unfold ret. f_equal.
    rewrite <- (with_buffer_same self) at 1. f_equal.
    rewrite <- (list_fmap_id (_buffer self)) at 1.
    apply list_fmap_ext. intros _ v _. by rewrite Z.shiftr_0_r.
  - cbn [replicate for_each]. unfold bind. rewrite scroll_up_ok. cbn [ret].
    rewrite IH. cbn [_buffer with_buffer _cascaded _spi]. unfold with_buffer.
    cbn [_buffer _cascaded _spi]. do 2 f_equal.
    rewrite <- list_fmap_compose. apply list_fmap_ext. intros _ v _.
    cbn. rewrite Z.shiftr_shiftr by lia. f_equal. lia.
Qed.

(** X8: when every buffer byte is an 8-bit value, eight [scroll_up] calls
    in a row return and leave the whole buffer blank. *)
Theorem eight_scroll_ups_blank_the_display self :
  Forall (fun v => 0 <= v < 256) (_buffer self) ->
  for_each (replicate 8 tt) (fun _ => scroll_up false) self
  = (Ok tt, with_buffer self (replicate (length (_buffer self)) 0)).
Proof.
  intros Hb. rewrite scroll_up_repeated. do 2 f_equal.
  induction Hb as [|v b [Hlo Hhi] _ IH]; [done|].
  cbn [fmap list_fmap length replicate]. f_equal; [|apply IH].
  rewrite Z.shiftr_div_pow2 by lia. change (2 ^ Z.of_nat 8) with 256.
  by apply Z.div_small.
Qed.

Lemma eight_scroll_ups_blank_the_display_witness :
  for_each (replicate 8 tt) (fun _ => scroll_up false)
    (mkDevice 1 [255; 128; 1; 0; 7; 64; 200; 3] [])
  = (Ok tt, mkDevice 1 (replicate 8 0) []).
Proof.
  apply (eight_scroll_ups_blank_the_display
           (mkDevice 1 [255; 128; 1; 0; 7; 64; 200; 3] [])).
  simpl. repeat constructor; lia.
Defined.

(** ** Construction: the configuration sequence *)

Lemma list_mul_zeros (n cascaded : Z) :
  0 <= n -> 0 <= cascaded ->
  list_mul (list_mul [0] n) cascaded = replicate (Z.to_nat (n * cascaded)) 0.
Proof.
  intros Hn Hc.
  assert (forall k : nat, mjoin (replicate k [0]) = replicate k 0) as Hrow.
  { induction k as [|k IH]; [done|].
    change (mjoin (replicate (S k) [0])) with ([0] ++ mjoin (replicate k [0])).
    by rewrite IH. }
  unfold list_mul. rewrite Hrow.
  replace (Z.to_nat (n * cascaded))
    with (Z.to_nat cascaded * Z.to_nat n)%nat by lia.
  induction (Z.to_nat cascaded) as [|k IH]; [done|].
  change (mjoin (replicate (S k) (replicate (Z.to_nat n) 0)))
    with (replicate (Z.to_nat n) 0
          ++ mjoin (replicate k (replicate (Z.to_nat n) 0))).
  rewrite IH, <- replicate_add. f_equal.
Qed.

(** X9: construction with at least one chip returns an object with blank
    buffer of [8 * cascaded] bytes whose bus log is, in this order: scan
    limit 7, decode mode 0, display test 0, shutdown 1, intensity 7 (each as
    one transfer of the pair repeated per chip), and then the eight
    transfers of one flush of the blank buffer. *)
Theorem init_configures_then_blanks cascaded :
  1 <= cascaded ->
  __init__ cascaded
  = Ok (mkDevice cascaded (replicate (Z.to_nat (8 * cascaded)) 0)
          ([list_mul [MAX7219_REG_SCANLIMIT; 7] cascaded;
            list_mul [MAX7219_REG_DECODEMODE; 0] cascaded;
            list_mul [MAX7219_REG_DISPLAYTEST; 0] cascaded;
            list_mul [MAX7219_REG_SHUTDOWN; 1] cascaded;
            list_mul [MAX7219_REG_INTENSITY; 7] cascaded]
           ++ flush_transfers (replicate (Z.to_nat (8 * cascaded)) 0)
                cascaded)).
Proof.
  intros Hc. unfold __init__.
  rewrite bool_decide_true by lia. cbn [negb].
  rewrite list_mul_zeros by (unfold NUM_DIGITS; lia).
  change NUM_DIGITS with 8.
  set (zeros := replicate (Z.to_nat (8 * cascaded)) 0).
  set (self0 := {| _cascaded := cascaded; _buffer := zeros; _spi := [] |}).
  assert (wf self0) as Hwf0.
  { split; [cbn; lia|]. cbn [_buffer _cascaded self0]. unfold zeros.
    rewrite length_replicate. unfold NUM_DIGITS. lia. }
  do 4 (unfold bind at 1; rewrite command_ok by (vm_compute; done)).
  unfold bind at 1, brightness.
  rewrite bool_decide_true by lia. unfold bind at 1. cbn [assert ret].
  rewrite command_ok by (vm_compute; done).
  rewrite clear_all_ok by by repeat apply wf_with_spi.
  rewrite flush_ok
    by (apply wf_with_buffer; [by repeat apply wf_with_spi|];
        by rewrite length_replicate).
  cbn [with_spi with_buffer _buffer _cascaded _spi self0 app].
  unfold zeros at 1 2. by rewrite length_replicate.
Qed.

Lemma init_configures_then_blanks_witness :
  __init__ 2
  = Ok (mkDevice 2 (replicate 16 0)
          ([[0xB; 7; 0xB; 7]; [0x9; 0; 0x9; 0]; [0xF; 0; 0xF; 0];
            [0xC; 1; 0xC; 1]; [0xA; 7; 0xA; 7]]
           ++ flush_transfers (replicate 16 0) 2)).
Proof. apply (init_configures_then_blanks 2). lia. Defined.

(** ** letter and pixel: argument checks and composition *)

(** X10: [letter] with a code outside [0, 256) fails its assertion, and
    with a code in range that the font has no entry for it fails with the
    lookup error; in both cases nothing is stored or sent, whatever the
    device id and the redraw flag. *)
Theorem letter_fails_fast_on_bad_code self d code font redraw :
  (~ (0 <= code < 256) ->
   letter d code font redraw self = (Raise (AssertionError None), self))
  /\ (0 <= code < 256 -> font code = None ->
      letter d code font redraw self = (Raise LookupError, self)).
Proof.
  split; unfold letter.
  - intros Hcode. by rewrite bool_decide_false by lia.
  - intros Hcode Hfont. rewrite bool_decide_true by lia.
    unfold bind at 1. cbn [assert ret]. unfold bind at 1, font_getitem.
    by rewrite Hfont.
Qed.

Lemma letter_fails_fast_on_bad_code_witness :
  letter 0 256 (fun _ => Some [1; 2]) true (mkDevice 1 (replicate 8 9) [])
  = (Raise (AssertionError None), mkDevice 1 (replicate 8 9) [])
  /\ letter 0 65 (fun _ => None) true (mkDevice 1 (replicate 8 9) [])
     = (Raise LookupError, mkDevice 1 (replicate 8 9) []).
Proof.
  split.
  - apply (letter_fails_fast_on_bad_code
             (mkDevice 1 (replicate 8 9) []) 0 256 (fun _ => Some [1; 2]) true).
    lia.
  - apply (letter_fails_fast_on_bad_code
             (mkDevice 1 (replicate 8 9) []) 0 65 (fun _ => None) true);
      [lia | reflexivity].
Defined.

(** X11: with a device id outside [0, cascaded), [letter] on a glyph of at
    least one column fails the assertion of its first store with nothing
    stored or sent; on a glyph of no columns the device id is never looked
    at and the call returns with the buffer untouched. *)
Theorem letter_checks_device_at_first_column self d code font redraw :
  ~ (0 <= d < _cascaded self) -> 0 <= code < 256 ->
  (forall v cols, font code = Some (v :: cols) ->
   letter d code font redraw self
   = (Raise (AssertionError (Some ("Invalid deviceId: " +:+ pretty d))),
      self))
  /\ (font code = Some [] ->
      letter d code font false self = (Ok tt, self)).
Proof.
  intros Hd Hcode. split.
  - intros v cols Hfont. unfold letter.
    rewrite bool_decide_true by lia. unfold bind at 1. cbn [assert ret].
    unfold bind at 1, font_getitem. rewrite Hfont. cbn [ret].
    unfold bind at 1. cbn [letter_loop].
    rewrite bool_decide_false
      by (unfold MAX7219_REG_DIGIT0, MAX7219_REG_DIGIT7; lia).
    unfold bind at 1, set_byte. unfold bind at 1, get_cascaded.
    by rewrite bool_decide_false by lia.
  - intros Hfont. unfold letter.
    rewrite bool_decide_true by lia. unfold bind at 1. cbn [assert ret].
    unfold bind at 1, font_getitem. by rewrite Hfont.
Qed.

Lemma letter_checks_device_at_first_column_witness :
  letter 5 65 (fun _ => Some [1; 2; 3]) true (mkDevice 1 (replicate 8 9) [])
  = (Raise (AssertionError (Some "Invalid deviceId: 5")),
     mkDevice 1 (replicate 8 9) []).
Proof.
  apply (letter_checks_device_at_first_column
           (mkDevice 1 (replicate 8 9) []) 5 65 (fun _ => Some [1; 2; 3])
           true) with (v := 1) (cols := [2; 3]);
    [simpl; lia | lia | reflexivity].
Defined.

(** X12: [pixel] with [x] outside [0, len(buffer)) or [y] outside [0, 8)
    fails an assertion with nothing stored or sent. *)
Theorem pixel_rejects_out_of_range self x y value redraw :
  ~ (0 <= x < Z.of_nat (length (_buffer self)) /\ 0 <= y < 8) ->
  pixel x y value redraw self = (Raise (AssertionError None), self).
Proof.
  intros Hbad. unfold pixel, bind at 1, get_buffer.
  destruct (decide (0 <= x < Z.of_nat (length (_buffer self)))) as [Hx|Hx].
  - rewrite bool_decide_true by lia. unfold bind at 1. cbn [assert ret].
    by rewrite bool_decide_false by (intros ?; apply Hbad; lia).
  - by rewrite bool_decide_false by lia.
Qed.

Lemma pixel_rejects_out_of_range_witness :
  pixel 3 8 1 true (mkDevice 1 (replicate 8 0) [])
  = (Raise (AssertionError None), mkDevice 1 (replicate 8 0) []).
Proof.
  apply (pixel_rejects_out_of_range (mkDevice 1 (replicate 8 0) []) 3 8 1 true).
  simpl. lia.
Defined.

Lemma land_lor_lnot_same (a m : Z) :
  Z.land (Z.lor a m) (Z.lnot m) = Z.land a (Z.lnot m).
Proof.
  apply Z.bits_inj'. intros n Hn.
  rewrite !Z.land_spec, Z.lor_spec, Z.lnot_spec by done.
  by destruct (Z.testbit a n), (Z.testbit m n).
Qed.

(** X13: setting a pixel and then clearing the same pixel leaves the object
    exactly as clearing it alone does: the clear undoes the set and touches
    nothing else. *)
Theorem pixel_set_then_clear_is_clear self x y :
  wf self ->
  0 <= x < Z.of_nat (length (_buffer self)) -> 0 <= y < 8 ->
  (pixel x y 1 false ;; pixel x y 0 false) self = pixel x y 0 false self.
Proof.
  intros Hwf Hx Hy. pose proof Hwf as [Hc Hlen]. unfold NUM_DIGITS in Hlen.
  unfold bind. rewrite (pixel_ok x y 1) by done.
  rewrite pixel_ok;
    [| apply wf_with_buffer; [done|apply length_insert]
     | cbn [_buffer with_buffer]; by rewrite length_insert | done].
  rewrite (pixel_ok x y 0) by done.
  cbn [truthy Z.eqb negb _buffer with_buffer _cascaded _spi].
  unfold with_buffer. cbn [_buffer _cascaded _spi].
  rewrite list_lookup_total_insert_eq by lia.
  by rewrite list_insert_insert_eq, land_lor_lnot_same.
Qed.

Lemma pixel_set_then_clear_is_clear_witness :
  (pixel 3 5 1 false ;; pixel 3 5 0 false)
    (mkDevice 1 [1;2;3;4;5;6;7;8] [])
  = pixel 3 5 0 false (mkDevice 1 [1;2;3;4;5;6;7;8] []).
Proof.
  apply (pixel_set_then_clear_is_clear (mkDevice 1 [1;2;3;4;5;6;7;8] []) 3 5).
  - split; [simpl; lia | reflexivity].
  - simpl. lia.
  - lia.
Defined.

(** ** show_message: the sliding window *)

Lemma for_each_app {A} (xs ys : list A) (body : A -> M unit) self :
  for_each (xs ++ ys) body self
  = (for_each xs body ;; for_each ys body) self.
Proof.
  revert self. induction xs as [|x xs IH]; intros self; [done|].
  cbn [app for_each]. unfold bind.
  destruct (body x self) as [[[]|e] self1]; [|done].
  by rewrite IH.
Qed.

Lemma show_column_ok value self :
  wf self ->
  show_column value self
  = (Ok tt,
     mkDevice (_cascaded self) (drop 1 (_buffer self ++ [value]))
       (_spi self
        ++ flush_transfers (drop 1 (_buffer self ++ [value]))
             (_cascaded self))).
Proof.
  intros Hwf. pose proof Hwf as [Hc Hlen]. unfold NUM_DIGITS in Hlen.
  unfold show_column, bind at 1. rewrite scroll_left_ok by done. cbn [ret].
  destruct (_buffer self) as [|b0 b] eqn:Hb; [cbn in Hlen; lia|].
  cbn [delete list_delete]. unfold bind at 1, buffer_setitem, bind at 1.
  unfold get_buffer. cbn [_buffer with_buffer].
  rewrite norm_index_last by by destruct b.
  rewrite length_app, Nat.add_1_r. cbn [pred length].
  replace (length b) with (length b + 0)%nat at 1 by lia.
  rewrite insert_app_r. cbn [insert list_insert].
  unfold set_buffer. rewrite flush_ok; [done|].
  split; [done|]. cbn [_buffer with_buffer _cascaded].
  rewrite length_app. cbn [length] in *. unfold NUM_DIGITS. lia.
Qed.

Lemma show_columns_ok cols self :
  wf self ->
  exists log : list (list Z),
    for_each cols show_column self
    = (Ok tt,
       mkDevice (_cascaded self)
         (drop (length cols) (_buffer self ++ cols)) (_spi self ++ log))
    /\ length log = (8 * length cols)%nat.
Proof.
  revert self. induction cols as [|v cols IH]; intros self Hwf.
  - exists []. split; [|done]. cbn. unfold ret.
    rewrite !app_nil_r. by destruct self.
  - pose proof Hwf as [Hc Hlen]. unfold NUM_DIGITS in Hlen.
    cbn [for_each]. unfold bind. rewrite show_column_ok by done.
    set (self1 := mkDevice _ _ _).
    assert (wf self1) as Hwf1.
    { split; [done|]. cbn [_buffer _cascaded self1].
      rewrite length_drop, length_app. cbn [length]. unfold NUM_DIGITS. lia. }
    destruct (IH self1 Hwf1) as (log & Hrun & Hlog).
    exists (flush_transfers (drop 1 (_buffer self ++ [v])) (_cascaded self)
            ++ log).
    split.
    + rewrite Hrun. cbn [_buffer _cascaded _spi self1].
      rewrite <- app_assoc.
      assert (drop (length cols) (drop 1 (_buffer self ++ [v]) ++ cols)
              = drop (length (v :: cols)) (_buffer self ++ v :: cols)) as ->;
        [|done].
      destruct (_buffer self) as [|b0 b]; [cbn in Hlen; lia|].
      cbn [app drop length]. rewrite drop_0.
      by rewrite <- app_assoc.
    + rewrite length_app, Hlog. unfold flush_transfers.
      rewrite length_fmap, length_seqZ. cbn [length]. unfold NUM_DIGITS. lia.
Qed.

Lemma show_text_ok font text cols self :
  text_columns font text = Some cols ->
  for_each text (fun asciiCode =>
    cols <- font_getitem font (ord asciiCode) ;;
    for_each cols show_column) self
  = for_each cols show_column self.
Proof.
  set (body := fun asciiCode : ascii => _).
  revert cols self. induction text as [|ch text IH]; intros cols self Hcols.
  - by injection Hcols as <-.
  - cbn [text_columns] in Hcols.
    destruct (font (ord ch)) as [c1|] eqn:Hch; [|done].
    destruct (text_columns font text) as [rest|] eqn:Hrest; [|done].
    injection Hcols as <-.
    assert (body ch self = for_each c1 show_column self) as Hbody.
    { unfold body, bind, font_getitem. by rewrite Hch. }
    cbn [for_each]. rewrite for_each_app. unfold bind. rewrite Hbody.
    destruct (for_each c1 show_column self) as [[[]|e] self1]; [|done].
    by apply IH.
Qed.

(** X14: when every character of the text, and the blank that is appended
    once per chip, has a font entry, [show_message] returns; the buffer is
    then the last [len(buffer)] bytes of the old buffer followed by all the
    columns of the padded text, and the bus has received one flush (eight
    transfers) per column. *)
Theorem show_message_slides_window self text font cols :
  wf self ->
  text_columns font (text ++ spaces (_cascaded self)) = Some cols ->
  exists log : list (list Z),
    show_message text font self
    = (Ok tt,
       mkDevice (_cascaded self)
         (drop (length cols) (_buffer self ++ cols)) (_spi self ++ log))
    /\ length log = (8 * length cols)%nat.
Proof.
  intros Hwf Hcols. unfold show_message, bind at 1, get_cascaded.
  change (fun value : Z =>
            scroll_left false;; buffer_setitem (-1) value;; flush)
    with show_column.
  rewrite (show_text_ok font _ cols) by done.
  by apply show_columns_ok.
Qed.

Lemma show_message_slides_window_witness :
  exists log : list (list Z),
    show_message ["A"%char]
      (fun code => if code =? 65 then Some [7; 9] else Some [0; 0; 0])
      (mkDevice 1 [1;2;3;4;5;6;7;8] [])
    = (Ok tt,
       mkDevice 1 (drop (length [7; 9; 0; 0; 0])
                     ([1;2;3;4;5;6;7;8] ++ [7; 9; 0; 0; 0])) ([] ++ log))
    /\ length log = (8 * length [7; 9; 0; 0; 0])%nat.
Proof.
  apply (show_message_slides_window
           (mkDevice 1 [1;2;3;4;5;6;7;8] []) ["A"%char]
           (fun code => if code =? 65 then Some [7; 9] else Some [0; 0; 0])
           [7; 9; 0; 0; 0]).
  - split; [simpl; lia | reflexivity].
  - reflexivity.
Defined.

Lemma text_columns_app font t1 t2 c1 c2 :
  text_columns font t1 = Some c1 -> text_columns font t2 = Some c2 ->
  text_columns font (t1 ++ t2) = Some (c1 ++ c2).
Proof.
  revert c1. induction t1 as [|ch t1 IH]; intros c1 H1 H2.
  - by injection H1 as <-.
  - cbn [text_columns app] in *.
    destruct (font (ord ch)) as [c|]; [|done].
    destruct (text_columns font t1) as [rest|]; [|done].
    injection H1 as <-. rewrite (IH rest) by done. by rewrite app_assoc.
Qed.

Lemma text_columns_spaces font (n : Z) (blank : list Z) :
  font 32 = Some blank ->
  text_columns font (spaces n)
  = Some (mjoin (replicate (Z.to_nat n) blank)).
Proof.
  intros Hsp. unfold spaces, list_mul.
  induction (Z.to_nat n) as [|k IH]; [done|].
  change (mjoin (replicate (S k) [" "%char]))
    with (" "%char :: mjoin (replicate k [" "%char])).
  cbn [text_columns]. change (ord " ") with 32. by rewrite Hsp, IH.
Qed.

(** X15: when every character of the text has a font entry and the blank
    (code 32) is eight zero columns, [show_message] returns with the whole
    buffer blank: the appended blanks scroll the message off completely. *)
Theorem show_message_scrolls_off_completely self text font cols :
  wf self ->
  text_columns font text = Some cols ->
  font 32 = Some (replicate 8 0) ->
  exists log : list (list Z),
    show_message text font self
    = (Ok tt,
       mkDevice (_cascaded self) (replicate (length (_buffer self)) 0)
         (_spi self ++ log)).
Proof.
  intros Hwf Hcols Hsp. pose proof Hwf as [Hc Hlen].
  unfold NUM_DIGITS in Hlen.
  set (zeros := mjoin (replicate (Z.to_nat (_cascaded self)) (replicate 8 0))).
  assert (zeros = replicate (length (_buffer self)) 0) as Hzeros.
  { unfold zeros.
    replace (length (_buffer self))
      with (Z.to_nat (_cascaded self) * 8)%nat by lia.
    induction (Z.to_nat (_cascaded self)) as [|k IH]; [done|].
    change (mjoin (replicate (S k) (replicate 8 0)))
      with (replicate 8 0 ++ mjoin (replicate k (replicate 8 0))).
    rewrite IH, <- replicate_add. f_equal. }
  destruct (show_message_slides_window self text font (cols ++ zeros) Hwf)
    as (log & Hrun & _).
  { apply text_columns_app; [done|]. by apply text_columns_spaces. }
  exists log. rewrite Hrun. do 2 f_equal.
  rewrite Hzeros, app_assoc, drop_app.
  rewrite (drop_ge (_buffer self ++ cols))
    by (rewrite !length_app, length_replicate; lia).
  rewrite !length_app, length_replicate.
  replace (length cols + length (_buffer self)
           - (length (_buffer self) + length cols))%nat with 0%nat by lia.
  done.
Qed.

Lemma show_message_scrolls_off_completely_witness :
  exists log : list (list Z),
    show_message ["A"%char]
      (fun code => if code =? 65 then Some [7; 9] else Some (replicate 8 0))
      (mkDevice 1 [1;2;3;4;5;6;7;8] [])
    = (Ok tt, mkDevice 1 (replicate (length [1;2;3;4;5;6;7;8]) 0) ([] ++ log)).
Proof.
  apply (show_message_scrolls_off_completely
           (mkDevice 1 [1;2;3;4;5;6;7;8] []) ["A"%char]
           (fun code => if code =? 65 then Some [7; 9] else Some (replicate 8 0))
           [7; 9]).
  - split; [simpl; lia | reflexivity].
  - reflexivity.
  - reflexivity.
Defined.



(** ** str: what the unfinished method does *)

Lemma bus_only_ret {A} (a : A) : bus_only (ret a).
Proof.
  intros self. exists []. cbn. rewrite app_nil_r. by destruct self.
Qed.

Lemma bus_only_raise {A} e : bus_only (@raise A e).
Proof.
  intros self. exists []. cbn. rewrite app_nil_r. by destruct self.
Qed.

Lemma bus_only_bind {A B} (m : M A) (k : A -> M B) :
  bus_only m -> (forall a, bus_only (k a)) -> bus_only (bind m k).
Proof.
  intros Hm Hk self. unfold bind. destruct (Hm self) as [log1 H1].
  destruct (m self) as [[a|e] self1]; cbn [snd] in *; [|by exists log1].
  destruct (Hk a self1) as [log2 H2]. exists (log1 ++ log2).
  rewrite H2, H1. cbn. by rewrite app_assoc.
Qed.

Lemma bus_only_for_each {A} (xs : list A) (body : A -> M unit) :
  (forall x, bus_only (body x)) -> bus_only (for_each xs body).
Proof.
  intros Hbody. induction xs as [|x xs IH]; [apply bus_only_ret|].
  cbn [for_each]. by apply bus_only_bind.
Qed.

Lemma bus_only_get_buffer : bus_only get_buffer.
Proof.
  intros self. exists []. cbn. rewrite app_nil_r. by destruct self.
Qed.

Lemma bus_only_get_cascaded : bus_only get_cascaded.
Proof.
  intros self. exists []. cbn. rewrite app_nil_r. by destruct self.
Qed.

Lemma bus_only_getitem l i : bus_only (getitem l i).
Proof.
  unfold getitem. destruct (norm_index l i) as [k|]; [|apply bus_only_raise].
  destruct (l !! k); [apply bus_only_ret | apply bus_only_raise].
Qed.

Lemma bus_only_font_getitem font code : bus_only (font_getitem font code).
Proof.
  unfold font_getitem.
  destruct (font code); [apply bus_only_ret | apply bus_only_raise].
Qed.

Lemma bus_only_values_from position devs :
  bus_only (_values_from position devs).
Proof.
  induction devs as [|d devs IH]; [apply bus_only_ret|].
  cbn [_values_from].
  apply bus_only_bind; [apply bus_only_get_buffer|]. intros b.
  apply bus_only_bind; [apply bus_only_getitem|]. intros v.
  apply bus_only_bind; [done|]. intros rest. apply bus_only_ret.
Qed.

Lemma bus_only_flush : bus_only flush.
Proof.
  apply bus_only_for_each. intros posn.
  apply bus_only_bind; [|intros data self; by exists [data]].
  apply bus_only_bind; [apply bus_only_get_cascaded|].
  intros c. apply bus_only_values_from.
Qed.

Lemma bus_only_str_filter s2 vals : bus_only (str_filter s2 vals).
Proof.
  revert s2. induction vals as [|val vals IH]; intros s2;
    [apply bus_only_ret|].
  cbn [str_filter]. apply bus_only_bind; [|intros keep; apply IH].
  destruct (truthy val); [apply bus_only_ret|].
  apply bus_only_bind; [apply bus_only_getitem|].
  intros last_. apply bus_only_ret.
Qed.

Lemma bus_only_str_chars font s2 text : bus_only (str_chars font s2 text).
Proof.
  revert s2. induction text as [|ch text IH]; intros s2;
    [apply bus_only_ret|].
  cbn [str_chars].
  apply bus_only_bind; [apply bus_only_font_getitem|]. intros cols.
  apply bus_only_bind; [apply bus_only_str_filter|]. intros s2'. apply IH.
Qed.

(** X17: [str] never changes the buffer or the chip count of any object,
    for any text and font and whether it returns or raises: what it computes
    stays in a local name, and only the bus can have received transfers. *)
Theorem str_never_changes_buffer text font self :
  _buffer (str text font self).2 = _buffer self
  /\ _cascaded (str text font self).2 = _cascaded self
  /\ exists log, _spi (str text font self).2 = _spi self ++ log.
Proof.
  assert (bus_only (str text font)) as Hstr.
  { apply bus_only_bind; [apply bus_only_str_chars|].
    intros _. apply bus_only_flush. }
  destruct (Hstr self) as [log ->]. cbn. by eauto.
Qed.

(** X18: when the first character of the text has a glyph whose first
    column is zero, [str] looks at the last kept value of an empty list and
    raises the index error; nothing is sent and the object is unchanged. *)
Theorem str_raises_on_leading_blank_column ch text font cols self :
  font (ord ch) = Some (0 :: cols) ->
  str (ch :: text) font self = (Raise IndexError, self).
Proof.
  intros Hch. unfold str, bind at 1. cbn [str_chars].
  unfold bind at 1, font_getitem. by rewrite Hch.
Qed.

Lemma str_raises_on_leading_blank_column_witness :
  str ["A"%char; "B"%char] (fun _ => Some [0; 5; 6])
    (mkDevice 1 [1;2;3;4;5;6;7;8] [])
  = (Raise IndexError, mkDevice 1 [1;2;3;4;5;6;7;8] []).
Proof.
  apply (str_raises_on_leading_blank_column
           "A"%char ["B"%char] (fun _ => Some [0; 5; 6]) [5; 6]).
  reflexivity.
Defined.

Lemma str_filter_nonempty s2 vals self :
  s2 <> [] ->
  exists s2', str_filter s2 vals self = (Ok s2', self) /\ s2' <> [].
Proof.
  revert s2. induction vals as [|val vals IH]; intros s2 Hne;
    [by exists s2|].
  cbn [str_filter]. unfold bind at 1.
  destruct (truthy val).
  - cbn [ret]. apply IH. by destruct s2.
  - unfold bind at 1, getitem. rewrite norm_index_last by done.
    destruct (lookup_lt_is_Some_2 s2 (pred (length s2))) as [v Hv].
    { destruct s2; [done|]. cbn. lia. }
    rewrite Hv. cbn [ret]. apply IH. destruct (truthy v); [|done].
    by destruct s2.
Qed.

Lemma str_filter_from_empty vals self :
  head vals <> Some 0 ->
  exists s2',
    str_filter [] vals self = (Ok s2', self) /\ (vals <> [] -> s2' <> []).
Proof.
  intros Hhead. destruct vals as [|val vals]; [by exists []|].
  cbn [str_filter]. unfold bind at 1.
  assert (truthy val = true) as ->.
  { unfold truthy. apply negb_true_iff, Z.eqb_neq.
    intros ->. by apply Hhead. }
  cbn [ret app].
  destruct (str_filter_nonempty [val] vals self) as (s2' & Hrun & Hne);
    [done|].
  exists s2'. by rewrite Hrun.
Qed.

Lemma str_chars_returns font text cols s2 self :
  text_columns font text = Some cols ->
  s2 <> [] \/ head cols <> Some 0 ->
  exists s2', str_chars font s2 text self = (Ok s2', self).
Proof.
  revert cols s2. induction text as [|ch text IH]; intros cols s2 Hcols Hok;
    [by exists s2|].
  cbn [text_columns] in Hcols.
  destruct (font (ord ch)) as [c1|] eqn:Hch; [|done].
  destruct (text_columns font text) as [rest|] eqn:Hrest; [|done].
  injection Hcols as <-.
  cbn [str_chars]. unfold bind at 1, font_getitem. rewrite Hch. cbn [ret].
  unfold bind at 1.
  destruct (decide (s2 = [])) as [->|Hne].
  - destruct Hok as [?|Hhead]; [done|].
    destruct (str_filter_from_empty c1 self) as (s2' & Hrun & Hs2').
    { destruct c1; [done|]. exact Hhead. }
    rewrite Hrun. apply (IH rest); [done|].
    destruct c1 as [|v c1]; [by right | left; by apply Hs2'].
  - destruct (str_filter_nonempty s2 c1 self Hne) as (s2' & Hrun & Hs2').
    rewrite Hrun. apply (IH rest); [done | by left].
Qed.

(** X19: when every character of the text has a font entry and the first
    column of the text, if there is one, is not zero, [str] is exactly one
    flush of the buffer as it is: the text never reaches the display. *)
Theorem str_is_one_flush text font cols self :
  text_columns font text = Some cols ->
  head cols <> Some 0 ->
  str text font self = flush self.
Proof.
  intros Hcols Hhead. unfold str, bind.
  destruct (str_chars_returns font text cols [] self Hcols) as [s2' ->];
    [by right | done].
Qed.

Lemma str_is_one_flush_witness :
  str ["A"%char; "B"%char] (fun _ => Some [3; 0; 0; 6])
    (mkDevice 1 [1;2;3;4;5;6;7;8] [])
  = flush (mkDevice 1 [1;2;3;4;5;6;7;8] []).
Proof.
  apply (str_is_one_flush ["A"%char; "B"%char] (fun _ => Some [3; 0; 0; 6])
           [3; 0; 0; 6; 3; 0; 0; 6]).
  - reflexivity.
  - discriminate.
Defined.

(** ** The bus only ever carries cascade packets *)

Lemma sends_nothing {A} (m : M A) :
  (forall self, _spi (m self).2 = _spi self) -> sends_frames m.
Proof.
  intros Hm self _. exists []. by rewrite Hm, app_nil_r.
Qed.

Lemma sends_bind {A B} (m : M A) (k : A -> M B) :
  preserves m -> sends_frames m -> (forall a, sends_frames (k a)) ->
  sends_frames (bind m k).
Proof.
  intros Hp Hm Hk self Hwf. unfold bind.
  destruct (Hp self Hwf) as [Hwf1 Hc1].
  destruct (Hm self Hwf) as (log1 & H1 & F1).
  destruct (m self) as [[a|e] self1]; cbn [snd] in *; [|by exists log1].
  destruct (Hk a self1 Hwf1) as (log2 & H2 & F2).
  exists (log1 ++ log2). rewrite H2, H1, app_assoc. split; [done|].
  apply Forall_app. split; [done|]. by rewrite <- Hc1.
Qed.

Lemma sends_for_each {A} (xs : list A) (body : A -> M unit) :
  (forall x, preserves (body x)) -> (forall x, sends_frames (body x)) ->
  sends_frames (for_each xs body).
Proof.
  intros Hp Hbody. induction xs as [|x xs IH]; [by apply sends_nothing|].
  cbn [for_each]. by apply sends_bind.
Qed.

Lemma sends_assert cond msg : sends_frames (assert cond msg).
Proof. apply sends_nothing. intros self. by destruct cond. Qed.

Lemma sends_getitem l i : sends_frames (getitem l i).
Proof.
  apply sends_nothing. intros self. unfold getitem.
  destruct (norm_index l i) as [k|]; [|done]. by destruct (l !! k).
Qed.

Lemma sends_font_getitem font code : sends_frames (font_getitem font code).
Proof.
  apply sends_nothing. intros self. unfold font_getitem.
  by destruct (font code).
Qed.

Lemma sends_buffer_setitem i v : sends_frames (buffer_setitem i v).
Proof.
  apply sends_nothing. intros self. unfold buffer_setitem, bind, get_buffer.
  by destruct (norm_index (_buffer self) i).
Qed.

Lemma frame_column_stream buffer cascaded position :
  0 < cascaded -> 0 <= position < NUM_DIGITS ->
  frame cascaded (column_stream buffer cascaded position).
Proof.
  intros Hc Hp. split; [apply length_column_stream; lia|].
  exists (position + MAX7219_REG_DIGIT0). split.
  - unfold NUM_DIGITS, MAX7219_REG_DIGIT0, MAX7219_REG_DISPLAYTEST in *. lia.
  - intros d Hd.
    by destruct (lookup_column_stream buffer cascaded position d) as [-> _];
      [lia|..].
Qed.

Lemma sends_flush : sends_frames flush.
Proof.
  intros self Hwf. rewrite flush_ok by done. eexists. split; [done|].
  unfold flush_transfers. apply Forall_fmap, Forall_forall.
  intros p Hp%elem_of_seqZ. apply frame_column_stream; [by destruct Hwf|lia].
Qed.

Lemma sends_redraw (redraw : bool) :
  sends_frames (if redraw then flush else ret tt).
Proof. destruct redraw; [apply sends_flush | by apply sends_nothing]. Qed.

Lemma sends_redraw_after_store (redraw : bool) self b :
  wf self -> length b = length (_buffer self) ->
  exists log : list (list Z),
    _spi ((if redraw then flush else ret tt) (with_buffer self b)).2
    = _spi self ++ log
    /\ Forall (frame (_cascaded self)) log.
Proof.
  intros Hwf Hlen.
  apply (sends_redraw redraw (with_buffer self b)). by apply wf_with_buffer.
Qed.

Lemma sends_command register data : sends_frames (command register data).
Proof.
  intros self Hwf.
  destruct (decide (MAX7219_REG_DECODEMODE <= register
                    <= MAX7219_REG_DISPLAYTEST)) as [Hr|Hr].
  - rewrite command_ok by done. eexists. split; [done|].
    constructor; [|done]. destruct Hwf as [Hc _]. split.
    + apply length_list_mul_pair. lia.
    + exists register. split.
      * unfold MAX7219_REG_DIGIT0, MAX7219_REG_DECODEMODE in *. lia.
      * intros d Hd. by apply lookup_list_mul_pair.
  - rewrite command_rejected by done. exists []. by rewrite app_nil_r.
Qed.

Lemma sends_brightness intensity : sends_frames (brightness intensity).
Proof.
  apply sends_bind; [apply preserves_assert | apply sends_assert|].
  intros _. apply sends_command.
Qed.

Lemma sends_set_byte deviceId position value redraw :
  sends_frames (set_byte deviceId position value redraw).
Proof.
  apply sends_bind;
    [apply preserves_get_cascaded | by apply sends_nothing|]. intros c.
  apply sends_bind; [apply preserves_assert | apply sends_assert|]. intros _.
  apply sends_bind; [apply preserves_assert | apply sends_assert|]. intros _.
  apply sends_bind;
    [apply preserves_buffer_setitem | apply sends_buffer_setitem|].
  intros _. apply sends_redraw.
Qed.

Lemma preserves_clear_loop devs :
  preserves
    (for_each devs (fun deviceId =>
       for_each (range NUM_DIGITS) (fun position =>
         set_byte deviceId (position + MAX7219_REG_DIGIT0) 0 false))).
Proof.
  apply preserves_for_each. intros dev.
  apply preserves_for_each. intros position. apply preserves_set_byte.
Qed.

Lemma sends_clear_loop devs :
  sends_frames
    (for_each devs (fun deviceId =>
       for_each (range NUM_DIGITS) (fun position =>
         set_byte deviceId (position + MAX7219_REG_DIGIT0) 0 false))).
Proof.
  apply sends_for_each; intros dev.
  - apply preserves_for_each. intros position. apply preserves_set_byte.
  - apply sends_for_each; intros position;
      [apply preserves_set_byte | apply sends_set_byte].
Qed.

Lemma sends_clear deviceId : sends_frames (clear deviceId).
Proof.
  apply sends_bind;
    [apply preserves_get_cascaded | by apply sends_nothing|]. intros c.
  apply sends_bind; [apply preserves_assert | apply sends_assert|]. intros _.
  destruct deviceId as [d|];
    (apply sends_bind;
       [apply preserves_clear_loop | apply sends_clear_loop
       | intros; apply sends_flush]).
Qed.

Lemma sends_scroll_left redraw : sends_frames (scroll_left redraw).
Proof.
  intros self Hwf. rewrite scroll_left_ok by done.
  apply sends_redraw_after_store; [done|].
  destruct Hwf as [Hc Hlen]. unfold NUM_DIGITS in Hlen.
  rewrite length_app. destruct (_buffer self); cbn in *; lia.
Qed.

Lemma sends_scroll_right redraw : sends_frames (scroll_right redraw).
Proof.
  intros self Hwf. rewrite scroll_right_ok by done.
  apply sends_redraw_after_store; [done|].
  destruct Hwf as [Hc Hlen]. unfold NUM_DIGITS in Hlen.
  cbn [length]. rewrite length_delete by (apply lookup_lt_is_Some_2; lia).
  lia.
Qed.

Lemma sends_scroll_up redraw : sends_frames (scroll_up redraw).
Proof.
  intros self Hwf. rewrite scroll_up_ok.
  apply sends_redraw_after_store; [done|apply length_fmap].
Qed.

Lemma sends_scroll_down redraw : sends_frames (scroll_down redraw).
Proof.
  intros self Hwf. rewrite scroll_down_ok.
  apply sends_redraw_after_store; [done|apply length_fmap].
Qed.

Lemma sends_letter_loop deviceId asciiCode col vals :
  sends_frames (letter_loop deviceId asciiCode col vals).
Proof.
  revert col. induction vals as [|v vals IH]; intros col;
    [by apply sends_nothing|].
  cbn [letter_loop]. case_bool_decide.
  - apply sends_bind; [apply preserves_clear | apply sends_clear|].
    intros _. by apply sends_nothing.
  - apply sends_bind; [apply preserves_set_byte | apply sends_set_byte|].
    intros _. apply IH.
Qed.

Lemma sends_letter deviceId asciiCode font redraw :
  sends_frames (letter deviceId asciiCode font redraw).
Proof.
  apply sends_bind; [apply preserves_assert | apply sends_assert|]. intros _.
  apply sends_bind;
    [apply preserves_font_getitem | apply sends_font_getitem|]. intros cols.
  apply sends_bind;
    [apply preserves_letter_loop | apply sends_letter_loop|]. intros _.
  apply sends_redraw.
Qed.

Lemma preserves_show_step value :
  preserves (scroll_left false ;; buffer_setitem (-1) value ;; flush).
Proof.
  apply preserves_bind; [apply preserves_scroll_left|]. intros _.
  apply preserves_bind; [apply preserves_buffer_setitem|]. intros _.
  apply preserves_flush.
Qed.

Lemma sends_show_message text font : sends_frames (show_message text font).
Proof.
  apply sends_bind;
    [apply preserves_get_cascaded | by apply sends_nothing|]. intros c.
  apply sends_for_each; intros asciiCode.
  - apply preserves_bind; [apply preserves_font_getitem|]. intros cols.
    apply preserves_for_each. apply preserves_show_step.
  - apply sends_bind;
      [apply preserves_font_getitem | apply sends_font_getitem|].
    intros cols. apply sends_for_each; [apply preserves_show_step|].
    intros value.
    apply sends_bind;
      [apply preserves_scroll_left | apply sends_scroll_left|]. intros _.
    apply sends_bind;
      [apply preserves_buffer_setitem | apply sends_buffer_setitem|].
    intros _. apply sends_flush.
Qed.

Lemma str_filter_state s2 vals self : (str_filter s2 vals self).2 = self.
Proof.
  revert s2. induction vals as [|val vals IH]; intros s2; [done|].
  cbn [str_filter]. unfold bind at 1.
  destruct (truthy val); [cbn [ret]; apply IH|].
  unfold bind at 1, getitem.
  destruct (norm_index s2 (-1)) as [k|]; [|done].
  destruct (s2 !! k); [cbn [ret]; apply IH | done].
Qed.

Lemma str_chars_state font s2 text self :
  (str_chars font s2 text self).2 = self.
Proof.
  revert s2. induction text as [|ch text IH]; intros s2; [done|].
  cbn [str_chars]. unfold bind at 1, font_getitem.
  destruct (font (ord ch)) as [cols|]; [|done]. cbn [ret].
  unfold bind at 1. pose proof (str_filter_state s2 cols self) as Hf.
  destruct (str_filter s2 cols self) as [[s2'|e] self1]; cbn [snd] in Hf;
    subst self1; [apply IH | done].
Qed.

Lemma sends_str text font : sends_frames (str text font).
Proof.
  apply sends_bind;
    [apply preserves_str_chars | | intros; apply sends_flush].
  apply sends_nothing. intros self. by rewrite str_chars_state.
Qed.

Lemma sends_pixel x y value redraw : sends_frames (pixel x y value redraw).
Proof.
  apply sends_bind; [apply preserves_get_buffer | by apply sends_nothing|].
  intros b.
  apply sends_bind; [apply preserves_assert | apply sends_assert|]. intros _.
  apply sends_bind; [apply preserves_assert | apply sends_assert|]. intros _.
  apply sends_bind; [apply preserves_getitem | apply sends_getitem|].
  intros old.
  apply sends_bind; [| |intros _; apply sends_redraw];
    destruct (truthy value);
    first [apply preserves_buffer_setitem | apply sends_buffer_setitem].
Qed.

Lemma sends_run_call c : sends_frames (run_call c).
Proof.
  destruct c; cbn [run_call].
  - apply sends_command.
  - apply sends_clear.
  - apply sends_flush.
  - apply sends_brightness.
  - apply sends_set_byte.
  - apply sends_scroll_left.
  - apply sends_scroll_right.
  - apply sends_letter.
  - apply sends_scroll_up.
  - apply sends_scroll_down.
  - apply sends_show_message.
  - apply sends_str.
  - apply sends_pixel.
Qed.

(** X20: every transfer in the bus log of a reachable object is a cascade
    packet for its chip count: it has two bytes per chip, and one register
    address between DIGIT0 (1) and DISPLAYTEST (15) stands in front of the
    data byte of every chip.  No method, returning or raising, ever sends
    a short packet, the no-op register, or different registers to
    different chips. *)
Theorem bus_carries_only_cascade_packets cascaded self :
  reachable cascaded self ->
  Forall (frame cascaded) (_spi self).
Proof.
  induction 1 as [self Hinit | self c Hreach IH].
  - unfold __init__ in Hinit. case_bool_decide as Hc; [|done].
    cbn [negb] in Hinit.
    set (self0 := {| _cascaded := cascaded; _buffer := _; _spi := [] |})
      in Hinit.
    set (body := bind _ _) in Hinit.
    assert (wf self0) as Hwf0.
    { split; [cbn; lia|]. cbn [_buffer _cascaded self0].
      rewrite !length_list_mul. cbn [length]. unfold NUM_DIGITS. lia. }
    assert (sends_frames body) as Hbody.
    { unfold body.
      do 4 (apply sends_bind;
              [apply preserves_command | apply sends_command | intros _]).
      apply sends_bind;
        [apply preserves_brightness | apply sends_brightness | intros _].
      apply sends_clear. }
    destruct (Hbody self0 Hwf0) as (log & Hlog & Hframes).
    destruct (body self0) as [[[]|e] self1]; [|done].
    injection Hinit as <-. cbn [snd] in Hlog. by rewrite Hlog.
  - destruct (reachable_wf _ _ Hreach) as [Hwf Hcas].
    destruct (sends_run_call c self Hwf) as (log & Hlog & Hframes).
    rewrite Hlog. apply Forall_app. split; [done|]. by rewrite <- Hcas.
Qed.

Lemma bus_carries_only_cascade_packets_witness :
  Forall (frame 2)
    (_spi (run_call (CallLetter 1 65 (fun _ => Some [1; 2; 3]) true)
             (run_call (CallPixel 3 3 1 false)
                (mkDevice 2 (replicate 16 0)
                   ([[0xB; 7; 0xB; 7]; [0x9; 0; 0x9; 0]; [0xF; 0; 0xF; 0];
                     [0xC; 1; 0xC; 1]; [0xA; 7; 0xA; 7]]
                    ++ flush_transfers (replicate 16 0) 2))).2).2).
Proof.
  apply (bus_carries_only_cascade_packets 2).
  do 2 apply reachable_call. apply reachable_init. reflexivity.
Defined.

(** ** One round of the animation loop of main.py *)

Lemma optional_scroll_returns (cond : bool) (m : M unit) self :
  m = scroll_up false \/ m = scroll_right false
  \/ m = scroll_down false \/ m = scroll_left false ->
  wf self ->
  exists b' : list Z,
    (if cond then m else ret tt) self = (Ok tt, with_buffer self b')
    /\ length b' = length (_buffer self).
Proof.
  intros Hm Hwf. pose proof Hwf as [Hc Hlen]. unfold NUM_DIGITS in Hlen.
  destruct cond; [|exists (_buffer self); by rewrite with_buffer_same].
  destruct Hm as [-> | [-> | [-> | ->]]].
  - eexists. rewrite scroll_up_ok. split; [done|apply length_fmap].
  - eexists. rewrite scroll_right_ok by done. split; [done|].
    cbn [length]. rewrite length_delete by (apply lookup_lt_is_Some_2; lia).
    lia.
  - eexists. rewrite scroll_down_ok. split; [done|apply length_fmap].
  - eexists. rewrite scroll_left_ok by done. split; [done|].
    rewrite length_app. destruct (_buffer self); cbn in *; lia.
Qed.

(** X21: one round of the animation loop, for any number drawn as the
    direction, returns; it keeps the chip count and the buffer length and
    sends exactly one flush, that of the buffer it leaves behind. *)
Theorem main_round_is_one_flush self direction :
  wf self ->
  exists b' : list Z,
    main_round direction self
    = (Ok tt,
       mkDevice (_cascaded self) b'
         (_spi self ++ flush_transfers b' (_cascaded self)))
    /\ length b' = length (_buffer self).
Proof.
  intros Hwf. pose proof Hwf as [Hc Hlen]. unfold NUM_DIGITS in Hlen.
  unfold main_round. unfold bind at 1.
  rewrite pixel_ok by (done || lia).
  set (s1 := with_buffer self _).
  assert (wf s1) as Hwf1
    by (apply wf_with_buffer; [done|apply length_insert]).
  assert (length (_buffer s1) = length (_buffer self)) as Hl1
    by apply length_insert.
  unfold bind at 1.
  destruct (optional_scroll_returns
              ((direction =? 7) || (direction =? 0) || (direction =? 1))
              (scroll_up false) s1) as (b2 & -> & Hl2); [by left | done |].
  set (s2 := with_buffer s1 b2).
  assert (wf s2) as Hwf2 by by apply wf_with_buffer.
  unfold bind at 1.
  destruct (optional_scroll_returns
              ((direction =? 1) || (direction =? 2) || (direction =? 3))
              (scroll_right false) s2) as (b3 & -> & Hl3);
    [by right; left | done |].
  set (s3 := with_buffer s2 b3).
  assert (wf s3) as Hwf3 by by apply wf_with_buffer.
  unfold bind at 1.
  destruct (optional_scroll_returns
              ((direction =? 3) || (direction =? 4) || (direction =? 5))
              (scroll_down false) s3) as (b4 & -> & Hl4);
    [by right; right; left | done |].
  set (s4 := with_buffer s3 b4).
  assert (wf s4) as Hwf4 by by apply wf_with_buffer.
  unfold bind at 1.
  destruct (optional_scroll_returns
              ((direction =? 5) || (direction =? 6) || (direction =? 7))
              (scroll_left false) s4) as (b5 & -> & Hl5);
    [by right; right; right | done |].
  exists b5. split.
  - rewrite flush_ok by by apply wf_with_buffer. done.
  - cbn [_buffer with_buffer s4 s3 s2] in *. congruence.
Qed.

Lemma main_round_is_one_flush_witness :
  exists b' : list Z,
    main_round 3 (mkDevice 4 (replicate 32 0) [])
    = (Ok tt, mkDevice 4 b' ([] ++ flush_transfers b' 4))
    /\ length b' = length (replicate 32 0).
Proof.
  apply (main_round_is_one_flush (mkDevice 4 (replicate 32 0) []) 3).
  split; [simpl; lia | reflexivity].
Defined.

(** ** letter over letter *)

Lemma write_run_over_shorter b start xs ys :
  (length xs <= length ys)%nat ->
  (start + length ys <= length b)%nat ->
  write_run (write_run b start xs) start ys = write_run b start ys.
Proof.
  intros Hxy Hfit. apply list_eq. intros i.
  destruct (decide (i < start)%nat) as [Hlt|Hge].
  - by rewrite !lookup_write_run_lt.
  - destruct (decide (start + length ys <= i)%nat) as [Hout|Hin].
    + by rewrite !lookup_write_run_ge by lia.
    + replace i with (start + (i - start))%nat by lia.
      by rewrite !lookup_write_run_in by (rewrite ?length_write_run; lia).
Qed.

(** X22: on the same device, a glyph written by [letter] over an earlier
    glyph of no more columns replaces it entirely: the two calls in a row,
    without redraw, leave the object exactly as the second call alone
    does. *)
Theorem letter_overwrites_previous_glyph self d code1 code2 font cols1 cols2 :
  wf self -> 0 <= d < _cascaded self ->
  0 <= code1 < 256 -> 0 <= code2 < 256 ->
  font code1 = Some cols1 -> font code2 = Some cols2 ->
  (length cols1 <= length cols2 <= 8)%nat ->
  (letter d code1 font false ;; letter d code2 font false) self
  = letter d code2 font false self.
Proof.
  intros Hwf Hd Hc1 Hc2 Hf1 Hf2 Hlen.
  pose proof Hwf as [Hc Hl]. unfold NUM_DIGITS in Hl.
  unfold bind. rewrite (letter_fits d code1 font cols1) by (done || lia).
  cbn [ret].
  rewrite (letter_fits d code2 font cols2);
    [| apply wf_with_buffer; [done|apply length_write_run] | done..| lia].
  rewrite (letter_fits d code2 font cols2) by (done || lia).
  cbn [_buffer with_buffer _cascaded _spi ret]. unfold ret, with_buffer.
  cbn [_buffer _cascaded _spi].
  by rewrite write_run_over_shorter by lia.
Qed.

Lemma letter_overwrites_previous_glyph_witness :
  (letter 1 65 (fun code => if code =? 65 then Some [1; 2; 3]
                            else Some [9; 8; 7; 6; 5]) false ;;
   letter 1 66 (fun code => if code =? 65 then Some [1; 2; 3]
                            else Some [9; 8; 7; 6; 5]) false)
    (mkDevice 2 (replicate 16 0) [])
  = letter 1 66 (fun code => if code =? 65 then Some [1; 2; 3]
                             else Some [9; 8; 7; 6; 5]) false
      (mkDevice 2 (replicate 16 0) []).
Proof.
  apply (letter_overwrites_previous_glyph
           (mkDevice 2 (replicate 16 0) []) 1 65 66
           (fun code => if code =? 65 then Some [1; 2; 3]
                        else Some [9; 8; 7; 6; 5])
           [1; 2; 3] [9; 8; 7; 6; 5]).
  - split; [simpl; lia | reflexivity].
  - simpl. lia.
  - lia.
  - lia.
  - reflexivity.
  - reflexivity.
  - simpl. lia.
Defined.

(** ** scroll_down on a display with an empty bottom row *)

(** X23: when every buffer byte is below 128 (no pixel lit in row 7),
    [scroll_down] returns with every byte doubled, and every byte is still
    an 8-bit value. *)
Theorem scroll_down_with_empty_row_7_stays_in_byte_range self :
  Forall (fun v => 0 <= v < 128) (_buffer self) ->
  exists b' : list Z,
    scroll_down false self = (Ok tt, with_buffer self b')
    /\ b' = (fun v => 2 * v) <$> _buffer self
    /\ Forall (fun v => 0 <= v < 256) b'.
Proof.
  intros Hb. exists ((fun v => 2 * v) <$> _buffer self).
  split; [|split; [done|]].
  - by rewrite scroll_down_ok.
  - apply Forall_fmap. eapply Forall_impl; [done|].
    intros v [Hlo Hhi]. unfold compose. lia.
Qed.

Lemma scroll_down_with_empty_row_7_stays_in_byte_range_witness :
  exists b' : list Z,
    scroll_down false (mkDevice 1 [127; 0; 1; 64; 3; 5; 8; 100] [])
    = (Ok tt, mkDevice 1 b' [])
    /\ b' = (fun v => 2 * v) <$> [127; 0; 1; 64; 3; 5; 8; 100]
    /\ Forall (fun v => 0 <= v < 256) b'.
Proof.
  apply (scroll_down_with_empty_row_7_stays_in_byte_range
           (mkDevice 1 [127; 0; 1; 64; 3; 5; 8; 100] [])).
  simpl. repeat constructor; lia.
Defined.
